(** * HeatMap: the drill-down site map of [heatmap.py]

    The script has two halves.  The Python half cleans the site list,
    counts sites per region and per province, and lays out the folium
    elements (count markers, polygons, one heat/marker bundle per
    province).  The JavaScript half, emitted as a template, is the click
    logic that attaches and detaches those elements on the Leaflet map.

    Both halves are embedded here as executable definitions: data frames
    as lists of records, Python dicts and the Leaflet layer registry as
    [gmap]/[gset], the JavaScript handlers as functions on an explicit
    browser state in an exception monad. *)

From Stdlib Require Import ZArith QArith String.
From stdpp Require Import gmap strings list sorting fin_maps pretty.

Open Scope string_scope.
Set Warnings "-clear-no-such-hyp".

(** ** Settings and mappings *)

Definition CODE_TO_NAME : gmap string string :=
  list_to_map
    [ ("AB", "Alberta");
      ("BC", "British Columbia");
      ("MB", "Manitoba");
      ("NB", "New Brunswick");
      ("NL", "Newfoundland and Labrador");
      ("NS", "Nova Scotia");
      ("NT", "Northwest Territories");
      ("NU", "Nunavut");
      ("ON", "Ontario");
      ("PE", "Prince Edward Island");
      ("QC", "Quebec");
      ("SK", "Saskatchewan");
      ("YK", "Yukon") ].

Definition PURPLE : gset string :=
  {[ "Nunavut"; "Northwest Territories"; "Yukon"; "British Columbia" ]}.
Definition GREEN : gset string :=
  {[ "Ontario"; "Manitoba"; "Saskatchewan"; "Alberta"; "Quebec" ]}.
Definition ORANGE : gset string :=
  {[ "Newfoundland and Labrador"; "Prince Edward Island"; "Nova Scotia";
     "New Brunswick" ]}.

Definition REGION_COLOR : gmap string string :=
  list_to_map
    [ ("Purple Region", "purple");
      ("Green Region", "green");
      ("Orange Region", "orange") ].

(** [province_to_region]: [None] is Python's [None]. *)
Definition province_to_region (prov_name : string) : option string :=
  if bool_decide (prov_name ∈ PURPLE) then Some "Purple Region"
  else if bool_decide (prov_name ∈ GREEN) then Some "Green Region"
  else if bool_decide (prov_name ∈ ORANGE) then Some "Orange Region"
  else None.

(** ** Numbers

    A float64 column value: a finite number (kept exact), an infinity, or
    NaN (pandas' missing value). *)

Inductive num :=
| Fin (q : Q)
| Inf (negative : bool)
| NaN.

Definition notna (x : num) : bool :=
  match x with NaN => false | _ => true end.

(** [Series.fillna(v)] *)
Definition fillna (v : Q) (x : num) : num :=
  match x with NaN => Fin v | _ => x end.

(** [Series.between(lo, hi)], both ends inclusive; NaN compares false. *)
Definition between (lo hi : Q) (x : num) : bool :=
  match x with
  | Fin q => Qle_bool lo q && Qle_bool q hi
  | Inf _ | NaN => false
  end.

(** [x == k] for a number [x] and a literal [k]. *)
Definition num_eqb (x : num) (k : Q) : bool :=
  match x with
  | Fin q => Qeq_bool q k
  | Inf _ | NaN => false
  end.

(** [Series.mean()]: NaN on an empty column. *)
Definition finite_sum (l : list num) : Q :=
  foldr (fun x acc => match x with Fin q => q + acc | _ => acc end)%Q 0%Q l.

Definition mean (l : list num) : num :=
  match l with
  | [] => NaN
  | _ => Fin (finite_sum l / inject_Z (Z.of_nat (length l)))
  end.

(** A spreadsheet or JSON cell: a string, or a number (NaN when empty). *)
Inductive cell :=
| CStr (s : string)
| CNum (x : num).

(** [Series.isin(values)] for a list of strings. *)
Definition isin (c : cell) (values : list string) : bool :=
  match c with
  | CStr s => bool_decide (s ∈ values)
  | CNum _ => false
  end.

(** ** Folium elements

    Every folium element gets a fresh name ([get_name()]), and the page
    declares one JavaScript global of that name per element.  An element
    is therefore identified with the Python variable that holds it; the
    per-province feature groups of the loop over
    [df.groupby("province_name")] are indexed by the province name. *)

Inductive layer :=
| region_counts_layer
| prov_counts_purple
| prov_counts_green
| prov_counts_orange
| province_poly_layer
| region_layer
| site_fg (prov_name : string).

#[global] Instance layer_eq_dec : EqDecision layer.
Proof. solve_decision. Defined.

#[global] Instance layer_countable : Countable layer.
Proof.
  refine (inj_countable'
    (fun l => match l with
              | region_counts_layer => inl 0%nat
              | prov_counts_purple => inl 1%nat
              | prov_counts_green => inl 2%nat
              | prov_counts_orange => inl 3%nat
              | province_poly_layer => inl 4%nat
              | region_layer => inl 5%nat
              | site_fg p => inr p
              end)
    (fun x => match x with
              | inl 0%nat => region_counts_layer
              | inl 1%nat => prov_counts_purple
              | inl 2%nat => prov_counts_green
              | inl 3%nat => prov_counts_orange
              | inl 4%nat => province_poly_layer
              | inl _ => region_layer
              | inr p => site_fg p
              end) _).
  by intros [].
Defined.

(** [element.get_name()]: the name of the global that holds the element. *)
Definition get_name (l : layer) : layer := l.

Definition prov_counts_layer_by_region : gmap string layer :=
  list_to_map
    [ ("Purple Region", prov_counts_purple);
      ("Green Region", prov_counts_green);
      ("Orange Region", prov_counts_orange) ].

(** A path style, as passed to [style_function] and [setStyle]. *)
Record style := Style {
  fillColor : string;
  color : string;
  weight : Q;
  fillOpacity : Q;
}.

(** A count badge built by [add_count_marker]: the [count] and [color]
    interpolated in the HTML, the location, the tooltip text and the
    [interactive] flag. *)
Record count_marker := CountMarker {
  cm_lat : Q;
  cm_lon : Q;
  cm_count : nat;
  cm_color : string;
  cm_tooltip : string;
  cm_interactive : bool;
}.

(** A shapely point: [c.x] is the longitude, [c.y] the latitude. *)
Record point := Point { px : Q; py : Q }.

(** ** JavaScript exceptions

    A handler either completes with a value or throws. *)

Inductive exn := TypeError.

Inductive result (A : Type) :=
| Ok (a : A)
| Throw (e : exn).
Arguments Ok {A} a.
Arguments Throw {A} e.

#[global] Instance result_ret : MRet result := fun A a => Ok a.
#[global] Instance result_bind : MBind result := fun A B f m =>
  match m with
  | Ok a => f a
  | Throw e => Throw e
  end.

(** [array.forEach(body)], the state threaded through the calls. *)
Fixpoint forEach {A S : Type} (l : list A) (body : A -> S -> result S) (s : S)
  : result S :=
  match l with
  | [] => Ok s
  | x :: l => s ← body x s; forEach l body s
  end.

Section Heatmap.

Set Default Proof Using "Type".

(** Library functions the script calls: pandas' numeric parser and
    string accessors, and the geometry operations of geopandas and
    Leaflet. *)
Variable to_numeric : cell -> num.       (* pd.to_numeric(_, errors="coerce") *)
Variable astype_str : cell -> string.    (* .astype(str) *)
Variable str_strip : string -> string.   (* .str.strip() *)
Variable str_upper : string -> string.   (* .str.upper() *)
Variable geometry : Type.
Variable centroid : geometry -> point.           (* .geometry.centroid *)
Variable unary_union : list geometry -> geometry. (* dissolve's aggregate *)
Variable bounds : Type.
Variable getBounds : geometry -> bounds.          (* layer.getBounds() *)

(** Proofs about the layer sets do not involve the library functions. *)
Ltac clear_library :=
  try clear to_numeric; try clear astype_str; try clear str_strip;
  try clear str_upper; try clear centroid; try clear unary_union;
  try clear getBounds.

(** ** The Python half: cleaning, counting and laying out *)

(** *** Load and clean the data *)

(** One line of the sheet, with the columns the script reads. *)
Record raw_row := RawRow {
  raw_Site_Name : cell;
  raw_Site_User : cell;
  raw_Latitude : num;
  raw_Longitude : num;
  raw_Category : cell;
  raw_Province : cell;
}.

(** One row of [df] once cleaning is done: [Category] is numeric and
    the three derived columns are filled in. *)
Record row := Row {
  Site_Name : cell;
  Site_User : cell;
  Latitude : num;
  Longitude : num;
  Category : num;
  ProvCode : string;
  province_name : string;
  region : string;
}.

Definition valid_users : list string := ["DFO"; "Shared-DFO"; "SCH"].

(** Columns [Category], [ProvCode], [province_name] and [region], then
    the final filter: a row whose code has no full name, or whose name
    is in no region set, is dropped. *)
Definition assign_columns (r : raw_row) : option row :=
  let Category := fillna 0 (to_numeric (raw_Category r)) in
  let ProvCode := str_upper (str_strip (astype_str (raw_Province r))) in
  let ProvCode := if bool_decide (ProvCode = "OC") then "BC" else ProvCode in
  province_name ← CODE_TO_NAME !! ProvCode;
  region ← province_to_region province_name;
  Some {| Site_Name := raw_Site_Name r;
          Site_User := raw_Site_User r;
          Latitude := raw_Latitude r;
          Longitude := raw_Longitude r;
          Category := Category;
          ProvCode := ProvCode;
          province_name := province_name;
          region := region |}.

Definition clean (sheet : list raw_row) : list row :=
  let df := filter (fun r => isin (raw_Site_User r) valid_users) sheet in
  let df := filter (fun r => notna (raw_Latitude r) && notna (raw_Longitude r)) df in
  let df := filter (fun r => between 41.7 83.1 (raw_Latitude r)
                             && between (-141.0) (-52.6) (raw_Longitude r)) df in
  omap assign_columns df.

(** *** Create the map *)

Definition center_lat (df : list row) : num := mean (Latitude <$> df).
Definition center_lon (df : list row) : num := mean (Longitude <$> df).
Definition START_ZOOM : Z := 4.

(** *** Load the boundaries *)

(** A GeoJSON feature as read from the file. *)
Record raw_feature := RawFeature {
  raw_name : cell;
  raw_geometry : geometry;
}.

(** A row of [prov_gdf] / [regions_gdf], which is also the feature the
    browser sees: [props_name] and [props_region] are
    [feature.properties.name] and [feature.properties.region]. *)
Record feature := Feature {
  props_name : string;
  props_region : string;
  feat_geometry : geometry;
}.

(** [prov_gdf]: the name is normalised, the region assigned, and the
    features with no region are dropped. *)
Definition load_prov_gdf (features : list raw_feature) : list feature :=
  omap (fun f =>
          let name := str_strip (astype_str (raw_name f)) in
          region ← province_to_region name;
          Some {| props_name := name; props_region := region;
                  feat_geometry := raw_geometry f |})
       features.

(** [groupby(key)]: the groups in sorted key order, each with its rows
    in frame order. *)
Definition groupby {A : Type} (key : A -> string) (df : list A)
  : list (string * list A) :=
  (fun k => (k, filter (fun r => key r = k) df))
    <$> merge_sort String.le (remove_dups (key <$> df)).

(** [dissolve(by="region")]: one row per region, its geometry the union
    of the group's geometries, the other columns taken from the group's
    first row. *)
Definition dissolve (prov_gdf : list feature) : list feature :=
  omap (fun g : string * list feature =>
          first ← head g.2;
          Some {| props_name := props_name first;
                  props_region := g.1;
                  feat_geometry := unary_union (feat_geometry <$> g.2) |})
       (groupby props_region prov_gdf).

(** *** Counts *)

(** [groupby(key).size().to_dict()] *)
Definition groupby_size {A K : Type} `{Countable K}
    (key : A -> K) (df : list A) : gmap K nat :=
  foldr (fun r acc => <[key r := S (default 0 (acc !! key r))]> acc) ∅ df.

Definition counts_region (df : list row) : gmap string nat :=
  groupby_size region df.
Definition counts_prov (df : list row) : gmap (string * string) nat :=
  groupby_size (fun r => (region r, province_name r)) df.

(** [d.get(k, default)] *)
Definition dict_get {K V : Type} `{Countable K}
    (d : gmap K V) (k : K) (dflt : V) : V :=
  default dflt (d !! k).


(** *** Count marker layers *)

(** A [for] loop whose body may raise (a [KeyError] is [None]). *)
Fixpoint for_in {A S : Type} (l : list A) (body : A -> S -> option S) (s : S)
  : option S :=
  match l with
  | [] => Some s
  | x :: l => s ← body x s; for_in l body s
  end.

(** The markers added to each feature group, in the order added. *)
Definition add_count_marker (feature_group : layer) (lat lon : Q)
    (count : nat) (color tooltip : string)
    (children : gmap layer (list count_marker))
  : gmap layer (list count_marker) :=
  <[feature_group :=
      (dict_get children feature_group []
       ++ [ {| cm_lat := lat; cm_lon := lon; cm_count := count;
               cm_color := color; cm_tooltip := tooltip;
               cm_interactive := false |} ])%list ]> children.

(** Region count markers at region centroids. *)
Definition region_marker_loop (regions_gdf : list feature)
    (counts_region : gmap string nat)
    (children : gmap layer (list count_marker))
  : option (gmap layer (list count_marker)) :=
  for_in regions_gdf (fun r children =>
    let reg := props_region r in
    let c := centroid (feat_geometry r) in
    let count := dict_get counts_region reg 0%nat in
    color ← REGION_COLOR !! reg;
    Some (add_count_marker region_counts_layer (py c) (px c) count color
            (reg ++ ": " ++ pretty count ++ " sites") children)) children.

(** Province count markers at province centroids, in separate layers. *)
Definition province_marker_loop (prov_gdf : list feature)
    (counts_prov : gmap (string * string) nat)
    (children : gmap layer (list count_marker))
  : option (gmap layer (list count_marker)) :=
  for_in prov_gdf (fun pr children =>
    let reg := props_region pr in
    let prov_name := props_name pr in
    let c := centroid (feat_geometry pr) in
    let count := dict_get counts_prov (reg, prov_name) 0%nat in
    fg ← prov_counts_layer_by_region !! reg;
    color ← REGION_COLOR !! reg;
    Some (add_count_marker fg (py c) (px c) count color
            (prov_name ++ ": " ++ pretty count ++ " sites") children)) children.

(** Both loops, from the sheet and the boundary file. *)
Definition count_markers (sheet : list raw_row) (features : list raw_feature)
  : option (gmap layer (list count_marker)) :=
  let df := clean sheet in
  let prov_gdf := load_prov_gdf features in
  let regions_gdf := dissolve prov_gdf in
  children ← region_marker_loop regions_gdf (counts_region df) ∅;
  province_marker_loop prov_gdf (counts_prov df) children.

(** *** Province polygons (hidden until region click) *)

Definition province_poly_style (f : feature) : style :=
  let reg := props_region f in
  let color := dict_get REGION_COLOR reg "gray" in
  {| fillColor := color;
     color := "black";
     weight := 1;
     fillOpacity := 0.0 |}.
(** *** Region polygons (clickable) *)

(** [REGION_COLOR[reg]] raises a [KeyError] ([None]) on a region that is
    not a key. *)
Definition region_style (f : feature) : option style :=
  let reg := props_region f in
  c ← REGION_COLOR !! reg;
  Some {| fillColor := c;
          color := "black";
          weight := 2;
          fillOpacity := 0.25 |}.


(** *** Province-specific heat map and markers *)

(** The values interpolated in a site marker's popup. *)
Record site_marker := SiteMarker {
  sm_lat : num;
  sm_lon : num;
  sm_site : cell;
  sm_user : cell;
  sm_category : num;
  sm_province : string;
}.

(** What one province's feature group holds: the heat map's points and
    the marker cluster. *)
Record site_bundle := SiteBundle {
  heat_data : list (num * num * Q);
  cluster : list site_marker;
}.

Definition gradient : list (Q * string) :=
  [ (0.2, "green"); (0.4, "yellow"); (0.6, "orange"); (1.0, "red") ]%Q.

Definition make_heat_data (sub : list row) : list (num * num * Q) :=
  (fun row => (Latitude row, Longitude row,
               if num_eqb (Category row) 1 then 1 else 0.2)%Q) <$> sub.

Definition make_cluster (prov_name : string) (sub : list row) : list site_marker :=
  (fun row => {| sm_lat := Latitude row; sm_lon := Longitude row;
                 sm_site := Site_Name row; sm_user := Site_User row;
                 sm_category := Category row;
                 sm_province := prov_name |}) <$> sub.

(** The loop over [df.groupby("province_name")]: the feature group
    created for each province and what is added to it. *)
Definition site_layer_loop (df : list row) : list (string * layer * site_bundle) :=
  (fun g : string * list row =>
     let prov_name := g.1 in
     let sub := g.2 in
     (prov_name, site_fg prov_name,
      {| heat_data := make_heat_data sub;
         cluster := make_cluster prov_name sub |}))
    <$> groupby province_name df.

Definition province_site_layers (df : list row) : gmap string layer :=
  list_to_map ((fun e => e.1) <$> site_layer_loop df).

Definition prov_site_map (df : list row) : gmap string layer :=
  get_name <$> province_site_layers df.

(** The overlays added to the map, with their [show] flag. *)
Definition map_children (df : list row) : list (layer * bool) :=
  ([ (region_counts_layer, true);
    (prov_counts_purple, false);
    (prov_counts_green, false);
    (prov_counts_orange, false);
    (province_poly_layer, true);
    (region_layer, true) ]
  ++ ((fun e : string * layer * site_bundle => (e.1.2, false))
        <$> site_layer_loop df))%list.

(** ** The JavaScript half: back button and drill-down logic *)

(** What the Python half interpolates in the template: the name map of
    the site layers, the globals of the page, and the start view. *)
Record page := Page {
  provSiteMap : gmap string layer;
  window : layer -> option layer;
  pg_center_lat : num;
  pg_center_lon : num;
  pg_START_ZOOM : Z;
}.

(** The view last requested of the map. *)
Inductive viewport :=
| SetView (lat lon : num) (zoom : Z)
| FitBounds (b : bounds).

(** The state the handlers read and write: the script's variable, the
    layers currently on the map, the province polygons with their
    current style, the stacking flag set by [bringToFront], and the
    view. *)
Record browser := Browser {
  currentRegion : option string;
  on_map : gset layer;
  provpoly : list (feature * style);
  provpoly_in_front : bool;
  view : viewport;
}.

Definition with_currentRegion (r : option string) (b : browser) : browser :=
  {| currentRegion := r; on_map := on_map b; provpoly := provpoly b;
     provpoly_in_front := provpoly_in_front b; view := view b |}.
Definition with_on_map (ls : gset layer) (b : browser) : browser :=
  {| currentRegion := currentRegion b; on_map := ls; provpoly := provpoly b;
     provpoly_in_front := provpoly_in_front b; view := view b |}.
Definition with_provpoly (ps : list (feature * style)) (b : browser) : browser :=
  {| currentRegion := currentRegion b; on_map := on_map b; provpoly := ps;
     provpoly_in_front := provpoly_in_front b; view := view b |}.
Definition with_view (v : viewport) (b : browser) : browser :=
  {| currentRegion := currentRegion b; on_map := on_map b; provpoly := provpoly b;
     provpoly_in_front := provpoly_in_front b; view := v |}.

(** *** Leaflet's map methods

    Each dereferences its argument, so [undefined] ([None]) throws. *)

Definition hasLayer (layerObj : option layer) (b : browser) : result bool :=
  match layerObj with
  | Some l => Ok (bool_decide (l ∈ on_map b))
  | None => Throw TypeError
  end.

Definition removeLayer (layerObj : option layer) (b : browser) : result browser :=
  match layerObj with
  | Some l => Ok (with_on_map (on_map b ∖ {[ l ]}) b)
  | None => Throw TypeError
  end.

Definition addLayer (layerObj : option layer) (b : browser) : result browser :=
  match layerObj with
  | Some l => Ok (with_on_map ({[ l ]} ∪ on_map b) b)
  | None => Throw TypeError
  end.

Definition fitBounds (bd : bounds) (b : browser) : browser :=
  with_view (FitBounds bd) b.

Definition setView (lat lon : num) (zoom : Z) (b : browser) : browser :=
  with_view (SetView lat lon zoom) b.

Definition bringToFront (b : browser) : browser :=
  {| currentRegion := currentRegion b; on_map := on_map b; provpoly := provpoly b;
     provpoly_in_front := true; view := view b |}.

(** [layer.setStyle({fillOpacity: .., weight: ..})]: the two given
    options replace the current ones, the others stay. *)
Definition setStyle (fo w : Q) (s : style) : style :=
  {| fillColor := fillColor s; color := color s; weight := w; fillOpacity := fo |}.

(** JavaScript truthiness of a layer reference. *)
Definition truthy (layerObj : option layer) : bool :=
  match layerObj with Some _ => true | None => false end.

Section Handlers.

Variable pg : page.

(** [window[name]], where [name] may itself be [undefined]. *)
Definition window_get (name : option layer) : option layer :=
  name ≫= window pg.

(** *** Layer helpers *)

Definition removeLayerIfPresent (layerObj : option layer) (b : browser)
  : result browser :=
  if truthy layerObj then
    present ← hasLayer layerObj b;
    if present : bool then removeLayer layerObj b else Ok b
  else Ok b.

Definition addLayerIfMissing (layerObj : option layer) (b : browser)
  : result browser :=
  if truthy layerObj then
    present ← hasLayer layerObj b;
    if negb present then addLayer layerObj b else Ok b
  else Ok b.

Definition Object_keys (o : gmap string layer) : list string :=
  (map_to_list o).*1.

Definition hideAllProvinceSiteLayers (b : browser) : result browser :=
  forEach (Object_keys (provSiteMap pg)) (fun provName b =>
    let layerName := provSiteMap pg !! provName in
    let layerObj := window_get layerName in
    removeLayerIfPresent layerObj b) b.

Definition showProvinceSiteLayer (provName : string) (b : browser)
  : result browser :=
  b ← hideAllProvinceSiteLayers b;
  let layerName := provSiteMap pg !! provName in
  let layerObj := window_get layerName in
  addLayerIfMissing layerObj b.

(** *** Province polygons visibility *)

(** [targetRegion] is a string or [null] ([None]). *)
Definition setProvincePolygonVisibility (targetRegion : option string)
    (b : browser) : browser :=
  with_provpoly
    ((fun layer : feature * style =>
        let props := layer.1 in
        let isIn := bool_decide (Some (props_region props) = targetRegion) in
        (layer.1,
         setStyle (if isIn then 0.35 else 0.0)%Q (if isIn then 1 else 0)%Q layer.2))
       <$> provpoly b) b.

Definition hideAllProvinceCounts (b : browser) : result browser :=
  b ← removeLayerIfPresent (window_get (Some (get_name prov_counts_purple))) b;
  b ← removeLayerIfPresent (window_get (Some (get_name prov_counts_green))) b;
  removeLayerIfPresent (window_get (Some (get_name prov_counts_orange))) b.

Definition showProvinceCountsForRegion (targetRegion : option string)
    (b : browser) : result browser :=
  b ← hideAllProvinceCounts b;
  b ← (if bool_decide (targetRegion = Some "Purple Region")
       then addLayerIfMissing (window_get (Some (get_name prov_counts_purple))) b
       else Ok b);
  b ← (if bool_decide (targetRegion = Some "Green Region")
       then addLayerIfMissing (window_get (Some (get_name prov_counts_green))) b
       else Ok b);
  if bool_decide (targetRegion = Some "Orange Region")
  then addLayerIfMissing (window_get (Some (get_name prov_counts_orange))) b
  else Ok b.

(** *** The three click handlers *)

(** The back control's [onclick]. *)
Definition back_click (b : browser) : result browser :=
  let b := with_currentRegion None b in
  b ← addLayerIfMissing (window_get (Some (get_name region_counts_layer))) b;
  b ← hideAllProvinceCounts b;
  let b := setProvincePolygonVisibility (Some "__NONE__") b in
  b ← hideAllProvinceSiteLayers b;
  Ok (setView (pg_center_lat pg) (pg_center_lon pg) (pg_START_ZOOM pg) b).

(** Click on a polygon of the region layer. *)
Definition region_click (layer_feature : feature) (b : browser) : result browser :=
  let targetRegion := Some (props_region layer_feature) in
  let b := bringToFront b in
  let b := fitBounds (getBounds (feat_geometry layer_feature)) b in
  b ← removeLayerIfPresent (window_get (Some (get_name region_counts_layer))) b;
  b ← showProvinceCountsForRegion targetRegion b;
  let b := setProvincePolygonVisibility targetRegion b in
  hideAllProvinceSiteLayers b.

(** Click on a polygon of the province layer (always allowed). *)
Definition province_click (layer_feature : feature) (b : browser)
  : result browser :=
  let props := layer_feature in
  let b := bringToFront b in
  let b := with_currentRegion (Some (props_region props)) b in
  b ← removeLayerIfPresent (window_get (Some (get_name region_counts_layer))) b;
  b ← showProvinceCountsForRegion (currentRegion b) b;
  let b := setProvincePolygonVisibility (currentRegion b) b in
  let b := fitBounds (getBounds (feat_geometry layer_feature)) b in
  showProvinceSiteLayer (props_name props) b.

End Handlers.

(** *** The page the script writes, and a session on it *)

(** The template's parameters as the script computes them.  The page
    declares a global for every element the script created, and for
    nothing else. *)
Definition the_page (df : list row) : page :=
  {| provSiteMap := prov_site_map df;
     window := fun name =>
       if bool_decide (name ∈ (map_children df).*1) then Some name else None;
     pg_center_lat := center_lat df;
     pg_center_lon := center_lon df;
     pg_START_ZOOM := START_ZOOM |}.

(** The browser once the page has loaded: the overlays created with
    [show=True] are on the map, every province polygon has the style
    of [province_poly_style], and the view is the start view. *)
Definition initial (df : list row) (prov_gdf : list feature) : browser :=
  {| currentRegion := None;
     on_map := list_to_set (filter (fun e : layer * bool => e.2) (map_children df)).*1;
     provpoly := (fun f => (f, province_poly_style f)) <$> prov_gdf;
     provpoly_in_front := false;
     view := SetView (center_lat df) (center_lon df) START_ZOOM |}.

(** A navigation event: a click on a region polygon, on a province
    polygon, or on the back control. *)
Inductive event :=
| RegionClick (layer_feature : feature)
| ProvinceClick (layer_feature : feature)
| BackClick.

Definition handle (pg : page) (e : event) (b : browser) : result browser :=
  match e with
  | RegionClick f => region_click pg f b
  | ProvinceClick f => province_click pg f b
  | BackClick => back_click pg b
  end.

(** Events are handled one after the other, each to completion. *)
Definition run (pg : page) (events : list event) (b : browser) : result browser :=
  forEach events (handle pg) b.

(** The layer a reference denotes, as a set: empty for [undefined]. *)
Definition referent (layerObj : option layer) : gset layer :=
  match layerObj with Some l => {[ l ]} | None => ∅ end.

(** The site-bundle layers the page can reach through [provSiteMap]. *)
Definition site_objs (pg : page) : gset layer :=
  list_to_set
    (omap (fun provName => window_get pg (provSiteMap pg !! provName))
          (Object_keys (provSiteMap pg))).

(** The province-count layers the page can reach. *)
Definition count_layers (pg : page) : gset layer :=
  referent (window pg prov_counts_purple)
  ∪ referent (window pg prov_counts_green)
  ∪ referent (window pg prov_counts_orange).

(** The province-count layer a region name selects. *)
Definition selected_count_layer (pg : page) (targetRegion : option string)
  : gset layer :=
  (if bool_decide (targetRegion = Some "Orange Region")
   then referent (window pg prov_counts_orange) else ∅)
  ∪ (if bool_decide (targetRegion = Some "Green Region")
     then referent (window pg prov_counts_green) else ∅)
  ∪ (if bool_decide (targetRegion = Some "Purple Region")
     then referent (window pg prov_counts_purple) else ∅).

(** At most one province's site bundle is on the map. *)
Definition at_most_one_site_bundle (b : browser) : Prop :=
  forall p q : string, site_fg p ∈ on_map b -> site_fg q ∈ on_map b -> p = q.

(** What holds of the site bundles throughout a session: only feature
    groups the script created are on the map, and at most one of them. *)
Definition site_invariant (df : list row) (b : browser) : Prop :=
  (forall p, site_fg p ∈ on_map b -> p ∈ dom (province_site_layers df))
  /\ at_most_one_site_bundle b.

(** The round trip of a region click followed by a back click gives back
    the layers on the map, the province polygons' styles and the view of
    the freshly loaded page. *)
Definition round_trip_restores (df : list row) (prov_gdf : list feature)
    (layer_feature : feature) : Prop :=
  exists b,
    run (the_page df) [RegionClick layer_feature; BackClick] (initial df prov_gdf)
    = Ok b
    /\ on_map b = on_map (initial df prov_gdf)
    /\ provpoly b = provpoly (initial df prov_gdf)
    /\ view b = view (initial df prov_gdf).

(** The badge the region loop adds for a row of [regions_gdf], and the
    one the province loop adds for a row of [prov_gdf]. *)
Definition region_badge (counts_region : gmap string nat) (r : feature)
  : count_marker :=
  let reg := props_region r in
  let c := centroid (feat_geometry r) in
  let count := dict_get counts_region reg 0%nat in
  {| cm_lat := py c; cm_lon := px c; cm_count := count;
     cm_color := dict_get REGION_COLOR reg "";
     cm_tooltip := reg ++ ": " ++ pretty count ++ " sites";
     cm_interactive := false |}.

Definition province_badge (counts_prov : gmap (string * string) nat)
    (pr : feature) : count_marker :=
  let reg := props_region pr in
  let prov_name := props_name pr in
  let c := centroid (feat_geometry pr) in
  let count := dict_get counts_prov (reg, prov_name) 0%nat in
  {| cm_lat := py c; cm_lon := px c; cm_count := count;
     cm_color := dict_get REGION_COLOR reg "";
     cm_tooltip := prov_name ++ ": " ++ pretty count ++ " sites";
     cm_interactive := false |}.

(** Every region's badge shows the sum of the counts shown by the badges
    of its province-count layer. *)
Definition counts_add_up (sheet : list raw_row) (features : list raw_feature)
  : Prop :=
  exists children,
    count_markers sheet features = Some children
    /\ forall r, r ∈ dissolve (load_prov_gdf features) ->
         exists fg m,
           prov_counts_layer_by_region !! props_region r = Some fg
           /\ m ∈ dict_get children region_counts_layer []
           /\ cm_tooltip m
              = props_region r ++ ": " ++ pretty (cm_count m) ++ " sites"
           /\ cm_count m = sum_list (cm_count <$> dict_get children fg []).

(** What holds of the overlays throughout a session: the two polygon
    layers stay on the map, and every layer on the map is one of the
    elements the script created. *)
Definition overlays_invariant (df : list row) (b : browser) : Prop :=
  province_poly_layer ∈ on_map b
  /\ region_layer ∈ on_map b
  /\ forall l, l ∈ on_map b ->
       l ∈ [region_counts_layer; prov_counts_purple; prov_counts_green;
            prov_counts_orange; province_poly_layer; region_layer]
       \/ exists p, l = site_fg p /\ p ∈ dom (province_site_layers df).

(** ** Sample data

    A small sheet and boundary file on which the definitions can be run.
    The cells already hold clean values, so the sample library functions
    below are the plain readings: a numeric cell is its number and a text
    cell is not numeric, text is its own string form, and stripping and
    upper-casing leave the sample's text as it is.  A sample polygon is
    just an integer label. *)
Definition sample_to_numeric (c : cell) : num :=
  match c with CNum x => x | CStr _ => NaN end.
Definition sample_astype_str (c : cell) : string :=
  match c with CStr s => s | CNum _ => "nan" end.
Definition sample_strip (s : string) : string := s.
Definition sample_upper (s : string) : string := s.
Definition sample_centroid (g : Z) : point := Point (inject_Z g) (inject_Z g).
Definition sample_union (gs : list Z) : Z := foldr Z.max 0%Z gs.
Definition sample_bounds (g : Z) : Z := g.

Definition site_on : raw_row :=
  RawRow (CStr "Wharf A") (CStr "DFO") (Fin 45.4) (Fin (-75.7))
         (CNum (Fin 1)) (CStr "ON").
Definition site_qc : raw_row :=
  RawRow (CStr "Quai B") (CStr "SCH") (Fin 46.8) (Fin (-71.2))
         (CNum (Fin 2)) (CStr "QC").
(** A boundary feature of the given name. *)
Definition boundary_of (name : string) (g : geometry) : raw_feature :=
  RawFeature (CStr name) g.

Definition site_contractor : raw_row :=
  RawRow (CStr "Yard C") (CStr "Contractor") (Fin 49.2) (Fin (-123.1))
         (CNum (Fin 1)) (CStr "BC").

(** ** Properties of the layer helpers *)

Lemma with_on_map_id (b : browser) : with_on_map (on_map b) b = b.
Proof. by destruct b. Qed.

Lemma removeLayerIfPresent_eq (layerObj : option layer) (b : browser) :
  removeLayerIfPresent layerObj b
  = Ok (with_on_map (on_map b ∖ referent layerObj) b).
Proof.
  unfold removeLayerIfPresent.
  destruct layerObj as [l|]; simpl.
  - case_bool_decide; simpl; [done|].
    f_equal. rewrite <- (with_on_map_id b) at 1. f_equal. (clear_library; set_solver).
  - f_equal. rewrite <- (with_on_map_id b) at 1. f_equal. (clear_library; set_solver).
Qed.

Lemma addLayerIfMissing_eq (layerObj : option layer) (b : browser) :
  addLayerIfMissing layerObj b
  = Ok (with_on_map (referent layerObj ∪ on_map b) b).
Proof.
  unfold addLayerIfMissing.
  destruct layerObj as [l|]; simpl.
  - case_bool_decide; simpl; [|done].
    f_equal. rewrite <- (with_on_map_id b) at 1. f_equal. (clear_library; set_solver).
  - f_equal. rewrite <- (with_on_map_id b) at 1. f_equal. (clear_library; set_solver).
Qed.

Lemma forEach_removeLayerIfPresent (f : string -> option layer)
    (keys : list string) (b : browser) :
  forEach keys (fun provName b => removeLayerIfPresent (f provName) b) b
  = Ok (with_on_map (on_map b ∖ list_to_set (omap f keys)) b).
Proof.
  revert b. induction keys as [|k keys IH]; intros b; simpl.
  - rewrite difference_empty_L. by rewrite with_on_map_id.
  - rewrite removeLayerIfPresent_eq. simpl. rewrite IH. simpl.
    f_equal. unfold with_on_map; simpl. f_equal.
    destruct (f k) as [l|]; simpl; (clear_library; set_solver).
Qed.

Lemma hideAllProvinceSiteLayers_eq (pg : page) (b : browser) :
  hideAllProvinceSiteLayers pg b
  = Ok (with_on_map (on_map b ∖ site_objs pg) b).
Proof. apply forEach_removeLayerIfPresent. Qed.

Lemma showProvinceSiteLayer_eq (pg : page) (provName : string) (b : browser) :
  showProvinceSiteLayer pg provName b
  = Ok (with_on_map
          (referent (window_get pg (provSiteMap pg !! provName))
           ∪ (on_map b ∖ site_objs pg)) b).
Proof.
  unfold showProvinceSiteLayer.
  rewrite hideAllProvinceSiteLayers_eq. simpl.
  by rewrite addLayerIfMissing_eq.
Qed.

Lemma hideAllProvinceCounts_eq (pg : page) (b : browser) :
  hideAllProvinceCounts pg b
  = Ok (with_on_map
          (on_map b
           ∖ (referent (window pg prov_counts_purple)
              ∪ referent (window pg prov_counts_green)
              ∪ referent (window pg prov_counts_orange))) b).
Proof.
  unfold hideAllProvinceCounts, window_get, get_name; simpl.
  repeat (rewrite removeLayerIfPresent_eq; simpl).
  f_equal. unfold with_on_map; simpl. f_equal.
  generalize (referent (window pg prov_counts_purple))
             (referent (window pg prov_counts_green))
             (referent (window pg prov_counts_orange)).
  (clear_library; set_solver).
Qed.

(** The province-count layer that [showProvinceCountsForRegion] adds. *)
Lemma showProvinceCountsForRegion_eq (pg : page) (targetRegion : option string)
    (b : browser) :
  showProvinceCountsForRegion pg targetRegion b
  = Ok (with_on_map
          ((if bool_decide (targetRegion = Some "Orange Region")
            then referent (window pg prov_counts_orange) else ∅)
           ∪ (if bool_decide (targetRegion = Some "Green Region")
              then referent (window pg prov_counts_green) else ∅)
           ∪ (if bool_decide (targetRegion = Some "Purple Region")
              then referent (window pg prov_counts_purple) else ∅)
           ∪ (on_map b
              ∖ (referent (window pg prov_counts_purple)
                 ∪ referent (window pg prov_counts_green)
                 ∪ referent (window pg prov_counts_orange)))) b).
Proof.
  unfold showProvinceCountsForRegion, window_get, get_name; simpl.
  rewrite hideAllProvinceCounts_eq. simpl.
  destruct (bool_decide (targetRegion = Some "Purple Region")); simpl;
    rewrite ?addLayerIfMissing_eq; simpl;
    destruct (bool_decide (targetRegion = Some "Green Region")); simpl;
    rewrite ?addLayerIfMissing_eq; simpl;
    destruct (bool_decide (targetRegion = Some "Orange Region")); simpl;
    rewrite ?addLayerIfMissing_eq; simpl;
    f_equal; unfold with_on_map; simpl; f_equal;
    generalize (referent (window pg prov_counts_purple))
               (referent (window pg prov_counts_green))
               (referent (window pg prov_counts_orange)) (on_map b);
    intros P G O X; (clear_library; set_solver).
Qed.

(** *** The handlers never throw, and what they leave behind *)

Lemma region_click_eq (pg : page) (f : feature) (b : browser) :
  region_click pg f b
  = Ok {| currentRegion := currentRegion b;
          on_map :=
            (selected_count_layer pg (Some (props_region f))
             ∪ (on_map b ∖ referent (window pg region_counts_layer)
                ∖ count_layers pg))
            ∖ site_objs pg;
          provpoly :=
            provpoly (setProvincePolygonVisibility (Some (props_region f)) b);
          provpoly_in_front := true;
          view := FitBounds (getBounds (feat_geometry f)) |}.
Proof.
  unfold region_click, window_get, get_name; simpl.
  rewrite removeLayerIfPresent_eq; simpl.
  rewrite showProvinceCountsForRegion_eq; simpl.
  rewrite hideAllProvinceSiteLayers_eq; simpl.
  reflexivity.
Qed.

Lemma province_click_eq (pg : page) (f : feature) (b : browser) :
  province_click pg f b
  = Ok {| currentRegion := Some (props_region f);
          on_map :=
            referent (window_get pg (provSiteMap pg !! props_name f))
            ∪ ((selected_count_layer pg (Some (props_region f))
                ∪ (on_map b ∖ referent (window pg region_counts_layer)
                   ∖ count_layers pg))
               ∖ site_objs pg);
          provpoly :=
            provpoly (setProvincePolygonVisibility (Some (props_region f)) b);
          provpoly_in_front := true;
          view := FitBounds (getBounds (feat_geometry f)) |}.
Proof.
  unfold province_click, window_get, get_name; simpl.
  rewrite removeLayerIfPresent_eq; simpl.
  rewrite showProvinceCountsForRegion_eq; simpl.
  rewrite showProvinceSiteLayer_eq; simpl.
  reflexivity.
Qed.

Lemma back_click_eq (pg : page) (b : browser) :
  back_click pg b
  = Ok {| currentRegion := None;
          on_map :=
            (referent (window pg region_counts_layer) ∪ on_map b)
            ∖ count_layers pg ∖ site_objs pg;
          provpoly := provpoly (setProvincePolygonVisibility (Some "__NONE__") b);
          provpoly_in_front := provpoly_in_front b;
          view := SetView (pg_center_lat pg) (pg_center_lon pg) (pg_START_ZOOM pg) |}.
Proof.
  unfold back_click, window_get, get_name; simpl.
  rewrite addLayerIfMissing_eq; simpl.
  rewrite hideAllProvinceCounts_eq; simpl.
  rewrite hideAllProvinceSiteLayers_eq; simpl.
  reflexivity.
Qed.

(** ** The page the script writes *)

Lemma site_layer_loop_elem (df : list row) (e : string * layer * site_bundle) :
  e ∈ site_layer_loop df -> e.1.2 = site_fg e.1.1.
Proof.
  unfold site_layer_loop. intros He.
  apply list_elem_of_fmap in He as (g & -> & _). reflexivity.
Qed.

Lemma province_site_layers_lookup (df : list row) (p : string) (l : layer) :
  province_site_layers df !! p = Some l ->
  l = site_fg p /\ (l, false) ∈ map_children df.
Proof.
  unfold province_site_layers. intros Hl.
  apply elem_of_list_to_map_2 in Hl.
  apply list_elem_of_fmap in Hl as (e & He & Hin).
  pose proof (site_layer_loop_elem df e Hin) as Hfg.
  destruct e as [[p' l'] bd]; simpl in *. injection He as -> ->.
  split; [done|].
  unfold map_children. apply elem_of_app. right.
  apply list_elem_of_fmap. exists (p', l', bd). split; [|done]. reflexivity.
Qed.

Lemma the_page_provSiteMap (df : list row) (p : string) :
  provSiteMap (the_page df) !! p = province_site_layers df !! p.
Proof.
  simpl. unfold prov_site_map. rewrite lookup_fmap.
  by destruct (province_site_layers df !! p).
Qed.

Lemma the_page_window (df : list row) (n : layer) :
  window (the_page df) n
  = if bool_decide (n ∈ (map_children df).*1) then Some n else None.
Proof. reflexivity. Qed.

(** The page has a global for each of the six fixed overlays. *)
Lemma the_page_window_fixed (df : list row) (l : layer) :
  l ∈ [region_counts_layer; prov_counts_purple; prov_counts_green;
       prov_counts_orange; province_poly_layer; region_layer] ->
  window (the_page df) l = Some l.
Proof.
  intros Hl. rewrite the_page_window, bool_decide_eq_true_2; [done|].
  unfold map_children. rewrite fmap_app. apply elem_of_app. left.
  exact Hl.
Qed.

(** The global a province's [provSiteMap] entry names holds that
    province's feature group; a province with no entry resolves to
    [undefined]. *)
Lemma the_page_site_lookup (df : list row) (p : string) :
  window_get (the_page df) (provSiteMap (the_page df) !! p)
  = if bool_decide (p ∈ dom (province_site_layers df)) then Some (site_fg p) else None.
Proof.
  rewrite the_page_provSiteMap.
  case_bool_decide as Hd.
  - apply elem_of_dom in Hd as [l Hl]. rewrite Hl.
    apply province_site_layers_lookup in Hl as [-> Hin].
    change (window_get (the_page df) (Some (site_fg p)))
      with (window (the_page df) (site_fg p)).
    rewrite the_page_window.
    rewrite bool_decide_eq_true_2; [done|].
    apply list_elem_of_fmap. by exists (site_fg p, false).
  - apply not_elem_of_dom in Hd. by rewrite Hd.
Qed.

Lemma the_page_site_objs (df : list row) (l : layer) :
  l ∈ site_objs (the_page df)
  <-> exists p, l = site_fg p /\ p ∈ dom (province_site_layers df).
Proof.
  unfold site_objs. rewrite elem_of_list_to_set, list_elem_of_omap.
  split.
  - intros (p & _ & Hp). rewrite the_page_site_lookup in Hp.
    case_bool_decide; [|done]. injection Hp as <-. eauto.
  - intros (p & -> & Hp). exists p. split.
    + unfold Object_keys. apply list_elem_of_fmap.
      apply elem_of_dom in Hp as [l Hl].
      exists (p, l). split; [done|].
      apply elem_of_map_to_list. by rewrite the_page_provSiteMap.
    + rewrite the_page_site_lookup. by rewrite bool_decide_eq_true_2.
Qed.

Lemma initial_on_map (df : list row) (prov_gdf : list feature) :
  on_map (initial df prov_gdf)
  = {[ region_counts_layer; province_poly_layer; region_layer ]}.
Proof.
  apply set_eq. intros l.
  change (on_map (initial df prov_gdf))
    with (list_to_set (filter (fun e : layer * bool => e.2) (map_children df)).*1
          : gset layer).
  rewrite elem_of_list_to_set, list_elem_of_fmap.
  rewrite !elem_of_union, !elem_of_singleton.
  split.
  - intros ([l' show] & -> & Hin). simpl.
    apply list_elem_of_filter in Hin as [Hshow Hin]. simpl in Hshow.
    unfold map_children in Hin. apply elem_of_app in Hin as [Hin|Hin].
    + repeat (apply elem_of_cons in Hin as [Hin|Hin];
              [injection Hin as -> ->; auto; done|]).
      by apply elem_of_nil in Hin.
    + apply list_elem_of_fmap in Hin as (e & He & _).
      injection He as -> ->. done.
  - intros Hl. exists (l, true). split; [done|].
    apply list_elem_of_filter. split; [done|].
    unfold map_children. apply elem_of_app. left.
    rewrite !elem_of_cons. destruct Hl as [[->| ->]| ->]; auto 10.
Qed.

Lemma the_page_count_layers (df : list row) :
  count_layers (the_page df)
  = {[ prov_counts_purple; prov_counts_green; prov_counts_orange ]}.
Proof.
  unfold count_layers.
  rewrite !the_page_window_fixed by (rewrite !elem_of_cons; auto 10).
  reflexivity.
Qed.

Lemma prov_counts_layer_by_region_lookup (r : string) :
  prov_counts_layer_by_region !! r
  = if bool_decide (r = "Purple Region") then Some prov_counts_purple
    else if bool_decide (r = "Green Region") then Some prov_counts_green
    else if bool_decide (r = "Orange Region") then Some prov_counts_orange
    else None.
Proof.
  unfold prov_counts_layer_by_region. simpl.
  repeat (case_bool_decide;
          [subst r; by rewrite lookup_insert_eq
          | rewrite lookup_insert_ne by congruence]).
  apply lookup_empty.
Qed.

Lemma REGION_COLOR_lookup (r : string) :
  REGION_COLOR !! r
  = if bool_decide (r = "Purple Region") then Some "purple"
    else if bool_decide (r = "Green Region") then Some "green"
    else if bool_decide (r = "Orange Region") then Some "orange"
    else None.
Proof.
  unfold REGION_COLOR. simpl.
  repeat (case_bool_decide;
          [subst r; by rewrite lookup_insert_eq
          | rewrite lookup_insert_ne by congruence]).
  apply lookup_empty.
Qed.

Lemma the_page_selected_count_layer (df : list row) (r : string) :
  selected_count_layer (the_page df) (Some r)
  = referent (prov_counts_layer_by_region !! r).
Proof.
  unfold selected_count_layer.
  rewrite !the_page_window_fixed by (rewrite !elem_of_cons; auto 10).
  rewrite prov_counts_layer_by_region_lookup.
  repeat case_bool_decide; simplify_eq; simpl;
    rewrite ?(left_id_L ∅ (∪)), ?(right_id_L ∅ (∪)); reflexivity.
Qed.

Lemma prov_counts_layer_by_region_range (r : string) (l : layer) :
  prov_counts_layer_by_region !! r = Some l ->
  l = prov_counts_purple \/ l = prov_counts_green \/ l = prov_counts_orange.
Proof.
  rewrite prov_counts_layer_by_region_lookup.
  repeat case_bool_decide; intros [= <-]; auto.
Qed.

Lemma elem_of_referent (l : layer) (layerObj : option layer) :
  l ∈ referent layerObj <-> layerObj = Some l.
Proof.
  destruct layerObj as [l'|]; simpl.
  - rewrite elem_of_singleton. split; congruence.
  - rewrite elem_of_empty. split; [done|discriminate].
Qed.

Lemma site_fg_not_selected (df : list row) (r q : string) :
  site_fg q ∉ selected_count_layer (the_page df) (Some r).
Proof.
  rewrite the_page_selected_count_layer, elem_of_referent. intros Hq.
  apply prov_counts_layer_by_region_range in Hq as [Hq|[Hq|Hq]]; discriminate.
Qed.

Lemma site_fg_hidden (df : list row) (X : gset layer) (p : string) :
  (forall q, site_fg q ∈ X -> q ∈ dom (province_site_layers df)) ->
  site_fg p ∉ X ∖ site_objs (the_page df).
Proof.
  intros HX Hp. apply elem_of_difference in Hp as [Hp Hn].
  apply Hn, the_page_site_objs. eauto.
Qed.

Lemma handle_site_invariant (df : list row) (e : event) (b : browser) :
  site_invariant df b ->
  exists b', handle (the_page df) e b = Ok b' /\ site_invariant df b'.
Proof.
  intros [Hdom Hone].
  assert (Hsel : forall r q,
    site_fg q ∈ selected_count_layer (the_page df) (Some r)
                ∪ (on_map b ∖ referent (window (the_page df) region_counts_layer)
                   ∖ count_layers (the_page df)) ->
    q ∈ dom (province_site_layers df)).
  { intros r q Hq. apply elem_of_union in Hq as [Hq|Hq].
    - by apply site_fg_not_selected in Hq.
    - apply Hdom. apply elem_of_difference in Hq as [Hq _].
      by apply elem_of_difference in Hq as [Hq _]. }
  destruct e as [f|f|]; simpl.
  - rewrite region_click_eq. eexists; split; [reflexivity|].
    split; simpl.
    + intros p Hp. exfalso. eapply site_fg_hidden; [|exact Hp]. apply Hsel.
    + intros p q Hp _. exfalso. eapply site_fg_hidden; [|exact Hp]. apply Hsel.
  - rewrite province_click_eq. eexists; split; [reflexivity|].
    rewrite the_page_site_lookup.
    assert (Hin : forall p,
      site_fg p ∈ referent (if bool_decide (props_name f ∈ dom (province_site_layers df))
                           then Some (site_fg (props_name f)) else None)
                 ∪ ((selected_count_layer (the_page df) (Some (props_region f))
                     ∪ (on_map b ∖ referent (window (the_page df) region_counts_layer)
                        ∖ count_layers (the_page df)))
                    ∖ site_objs (the_page df)) ->
      p = props_name f /\ p ∈ dom (province_site_layers df)).
    { intros p Hp. apply elem_of_union in Hp as [Hp|Hp].
      - apply elem_of_referent in Hp.
        case_bool_decide; [|discriminate]. by injection Hp as <-.
      - exfalso. eapply site_fg_hidden; [|exact Hp]. apply Hsel. }
    split; simpl.
    + intros p Hp. by apply Hin in Hp as [_ ?].
    + intros p q Hp Hq. apply Hin in Hp as [-> _]. by apply Hin in Hq as [-> _].
  - rewrite back_click_eq. eexists; split; [reflexivity|].
    assert (Hback : forall q,
      site_fg q ∈ (referent (window (the_page df) region_counts_layer) ∪ on_map b)
                  ∖ count_layers (the_page df) ->
      q ∈ dom (province_site_layers df)).
    { intros q Hq. apply Hdom.
      apply elem_of_difference in Hq as [Hq _].
      apply elem_of_union in Hq as [Hq|Hq]; [|done].
      apply elem_of_referent in Hq.
      rewrite the_page_window_fixed in Hq by (rewrite !elem_of_cons; auto 10).
      discriminate. }
    split; simpl.
    + intros p Hp. exfalso. eapply site_fg_hidden; [|exact Hp]. apply Hback.
    + intros p q Hp _. exfalso. eapply site_fg_hidden; [|exact Hp]. apply Hback.
Qed.

Lemma initial_site_invariant (df : list row) (prov_gdf : list feature) :
  site_invariant df (initial df prov_gdf).
Proof.
  assert (Hno : forall p, site_fg p ∉ on_map (initial df prov_gdf)).
  { intros p. rewrite initial_on_map, !elem_of_union, !elem_of_singleton.
    intros [[?|?]|?]; discriminate. }
  split.
  - intros p Hp. by apply Hno in Hp.
  - intros p q Hp. by apply Hno in Hp.
Qed.

Lemma run_site_invariant (df : list row) (events : list event) (b : browser) :
  site_invariant df b ->
  exists b', run (the_page df) events b = Ok b' /\ site_invariant df b'.
Proof.
  revert b. induction events as [|e events IH]; intros b Hb.
  - exists b. split; [reflexivity|done].
  - destruct (handle_site_invariant df e b Hb) as (b1 & He & Hb1).
    destruct (IH b1 Hb1) as (b' & Hrun & Hb').
    exists b'. split; [|done].
    unfold run in *. simpl. rewrite He. exact Hrun.
Qed.

(** C1.  Whatever the sheet and the boundary file, and whatever sequence
    of region clicks, province clicks and back clicks follows the page
    load, every event is handled without an exception and, once the last
    one has completed, at most one province's site + heat bundle is on
    the map. *)
Theorem site_bundle_mutual_exclusion
    (sheet : list raw_row) (features : list raw_feature) (events : list event) :
  exists b,
    run (the_page (clean sheet)) events
        (initial (clean sheet) (load_prov_gdf features)) = Ok b
    /\ at_most_one_site_bundle b.
Proof.
  destruct (run_site_invariant (clean sheet) events
              (initial (clean sheet) (load_prov_gdf features))
              (initial_site_invariant _ _)) as (b & Hrun & _ & Hone).
  eauto.
Qed.

(** *** Grouping *)

Lemma groupby_elem {A : Type} (key : A -> string) (df : list A)
    (k : string) (sub : list A) :
  (k, sub) ∈ groupby key df
  <-> k ∈ key <$> df /\ sub = filter (fun r => key r = k) df.
Proof.
  unfold groupby. rewrite list_elem_of_fmap. split.
  - intros (k' & [= -> ->] & Hk). split; [|done].
    by rewrite merge_sort_Permutation, elem_of_remove_dups in Hk.
  - intros [Hk ->]. exists k. split; [done|].
    by rewrite merge_sort_Permutation, elem_of_remove_dups.
Qed.

Lemma groupby_keys {A : Type} (key : A -> string) (df : list A) :
  (groupby key df).*1 = merge_sort String.le (remove_dups (key <$> df)).
Proof.
  unfold groupby. rewrite <- list_fmap_compose.
  rewrite <- (list_fmap_id (merge_sort _ _)) at 2.
  by apply list_fmap_ext.
Qed.

Lemma groupby_keys_NoDup {A : Type} (key : A -> string) (df : list A) :
  NoDup (groupby key df).*1.
Proof.
  rewrite groupby_keys, merge_sort_Permutation. apply NoDup_remove_dups.
Qed.

(** A province has a site bundle exactly when some cleaned row is in it. *)
Lemma province_site_layers_dom (df : list row) (p : string) :
  p ∈ dom (province_site_layers df) <-> exists r, r ∈ df /\ province_name r = p.
Proof.
  rewrite elem_of_dom. unfold province_site_layers, site_layer_loop. split.
  - intros [l Hl]. apply elem_of_list_to_map_2 in Hl.
    apply list_elem_of_fmap in Hl as (e & He & Hin).
    apply list_elem_of_fmap in Hin as ([k sub] & -> & Hg). simpl in He.
    injection He as -> ->. apply groupby_elem in Hg as [Hk _].
    apply list_elem_of_fmap in Hk as (r & -> & Hr). eauto.
  - intros (r & Hr & <-). exists (site_fg (province_name r)).
    apply elem_of_list_to_map_1'.
    + intros y Hy. apply list_elem_of_fmap in Hy as (e & He & Hin).
      apply list_elem_of_fmap in Hin as ([k sub] & -> & _). simpl in He.
      by injection He as -> ->.
    + apply list_elem_of_fmap.
      eexists (province_name r, site_fg (province_name r), _). split; [done|].
      apply list_elem_of_fmap.
      exists (province_name r, filter (fun r' => province_name r' = province_name r) df).
      split; [done|]. apply groupby_elem. split; [|done].
      apply list_elem_of_fmap. eauto.
Qed.

(** *** Regions of the boundary rows *)

Lemma province_to_region_range (p r : string) :
  province_to_region p = Some r ->
  r = "Purple Region" \/ r = "Green Region" \/ r = "Orange Region".
Proof.
  unfold province_to_region.
  repeat case_bool_decide; intros [= <-]; auto.
Qed.

Lemma load_prov_gdf_elem (features : list raw_feature) (f : feature) :
  f ∈ load_prov_gdf features <->
  exists rf, rf ∈ features
    /\ props_name f = str_strip (astype_str (raw_name rf))
    /\ province_to_region (props_name f) = Some (props_region f)
    /\ feat_geometry f = raw_geometry rf.
Proof.
  unfold load_prov_gdf. rewrite list_elem_of_omap. split.
  - intros (rf & Hrf & Hf). exists rf. split; [done|].
    destruct (province_to_region (str_strip (astype_str (raw_name rf)))) eqn:Hr;
      simpl in Hf; [|done].
    injection Hf as <-. simpl. done.
  - intros (rf & Hrf & Hn & Hr & Hg). exists rf. split; [done|].
    rewrite <- Hn, Hr. simpl. destruct f; simpl in *. by rewrite Hn, Hg.
Qed.

Lemma load_prov_gdf_region (features : list raw_feature) (f : feature) :
  f ∈ load_prov_gdf features ->
  exists fg c,
    prov_counts_layer_by_region !! props_region f = Some fg
    /\ REGION_COLOR !! props_region f = Some c
    /\ props_region f <> "__NONE__".
Proof.
  intros Hf. apply load_prov_gdf_elem in Hf as (rf & _ & _ & Hr & _).
  rewrite prov_counts_layer_by_region_lookup, REGION_COLOR_lookup.
  apply province_to_region_range in Hr as [-> | [-> | ->]];
    eexists _, _; (split; [reflexivity|split; [reflexivity|done]]).
Qed.

(** *** The polygons keep their features *)

Lemma setProvincePolygonVisibility_fst (targetRegion : option string) (b : browser) :
  (provpoly (setProvincePolygonVisibility targetRegion b)).*1 = (provpoly b).*1.
Proof.
  simpl. rewrite <- list_fmap_compose. by apply list_fmap_ext.
Qed.

Lemma handle_provpoly_fst (pg : page) (e : event) (b b' : browser) :
  handle pg e b = Ok b' -> (provpoly b').*1 = (provpoly b).*1.
Proof.
  destruct e as [f|f|]; simpl.
  - rewrite region_click_eq. intros [= <-]. apply setProvincePolygonVisibility_fst.
  - rewrite province_click_eq. intros [= <-]. apply setProvincePolygonVisibility_fst.
  - rewrite back_click_eq. intros [= <-]. apply setProvincePolygonVisibility_fst.
Qed.

Lemma run_provpoly_fst (pg : page) (events : list event) (b b' : browser) :
  run pg events b = Ok b' -> (provpoly b').*1 = (provpoly b).*1.
Proof.
  revert b. induction events as [|e events IH]; intros b; unfold run; simpl.
  - by intros [= <-].
  - destruct (handle pg e b) as [b1|] eqn:He; simpl; [|done].
    intros Hrun. rewrite (IH _ Hrun). by eapply handle_provpoly_fst.
Qed.

Lemma initial_provpoly_fst (df : list row) (prov_gdf : list feature) :
  (provpoly (initial df prov_gdf)).*1 = prov_gdf.
Proof.
  simpl. rewrite <- list_fmap_compose.
  rewrite <- (list_fmap_id prov_gdf) at 2. by apply list_fmap_ext.
Qed.

Lemma setProvincePolygonVisibility_elem (targetRegion : option string)
    (b : browser) (g : feature) (st : style) :
  (g, st) ∈ provpoly (setProvincePolygonVisibility targetRegion b) ->
  fillOpacity st
  = (if bool_decide (Some (props_region g) = targetRegion) then 0.35 else 0.0)%Q
  /\ weight st
     = (if bool_decide (Some (props_region g) = targetRegion) then 1 else 0)%Q.
Proof.
  simpl. intros Hin. apply list_elem_of_fmap in Hin as ([g0 st0] & [= -> ->] & _).
  done.
Qed.

(** C2.  Take any province polygon [f] of the page and any state [b]
    reached from the loaded page by a sequence of events.  The click on
    [f] completes, and afterwards: the active region is the province's
    own region; of the three province-count layers exactly that region's
    is on the map; the region-count layer is off the map; a province
    polygon has a non-zero fill opacity exactly when it is in that
    region; the view requested is the polygon's bounds; and the only site
    bundle on the map is the clicked province's (it exists when the
    province has a cleaned site row). *)
Theorem province_click_drills_down
    (sheet : list raw_row) (features : list raw_feature)
    (events : list event) (f : feature) :
  f ∈ load_prov_gdf features ->
  exists b b' cl,
    run (the_page (clean sheet)) events
        (initial (clean sheet) (load_prov_gdf features)) = Ok b
    /\ province_click (the_page (clean sheet)) f b = Ok b'
    /\ currentRegion b' = Some (props_region f)
    /\ prov_counts_layer_by_region !! props_region f = Some cl
    /\ (forall l, l ∈ [prov_counts_purple; prov_counts_green; prov_counts_orange] ->
                  (l ∈ on_map b' <-> l = cl))
    /\ (region_counts_layer ∉ on_map b')
    /\ (provpoly b').*1 = load_prov_gdf features
    /\ (forall g st, (g, st) ∈ provpoly b' ->
                     (~ (fillOpacity st == 0)%Q) <-> props_region g = props_region f)
    /\ view b' = FitBounds (getBounds (feat_geometry f))
    /\ (forall q, site_fg q ∈ on_map b'
                  <-> q = props_name f
                      /\ exists r, r ∈ clean sheet /\ province_name r = q).
Proof.
  intros Hf. set (df := clean sheet).
  destruct (run_site_invariant df events
              (initial df (load_prov_gdf features))
              (initial_site_invariant _ _)) as (b & Hrun & Hdom & _).
  destruct (load_prov_gdf_region features f Hf) as (cl & c & Hcl & _ & _).
  eexists b, _, cl.
  split; [exact Hrun|]. split; [apply province_click_eq|].
  cbn [currentRegion on_map provpoly view].
  rewrite the_page_site_lookup, the_page_selected_count_layer, Hcl,
    the_page_count_layers.
  rewrite the_page_window_fixed by (rewrite !elem_of_cons; auto 10).
  pose proof (prov_counts_layer_by_region_range _ _ Hcl) as Hclr.
  assert (Hso : forall l, l ∈ site_objs (the_page df) -> exists p, l = site_fg p).
  { intros l Hl. apply the_page_site_objs in Hl as (p & -> & _). eauto. }
  assert (Hnsite : forall l,
      (if bool_decide (props_name f ∈ dom (province_site_layers df))
       then Some (site_fg (props_name f)) else None) = Some l ->
      l = site_fg (props_name f) /\ props_name f ∈ dom (province_site_layers df)).
  { intros l Hl. case_bool_decide; [|discriminate]. by injection Hl as <-. }
  split; [done|]. split; [done|].
  split; [|split; [|split; [|split; [|split]]]].
  - intros l Hl. rewrite !elem_of_cons, elem_of_nil in Hl.
    rewrite elem_of_union, elem_of_difference, elem_of_union.
    rewrite !elem_of_difference, !elem_of_referent.
    rewrite !elem_of_union, !elem_of_singleton.
    split.
    + intros [Hin|[[Hin|[_ Hin]] _]].
      * apply Hnsite in Hin as [-> _]. destruct Hl as [?|[?|[?|[]]]]; discriminate.
      * congruence.
      * exfalso. apply Hin. tauto.
    + intros ->. right. split; [by left|].
      intros Hn. apply Hso in Hn as [p ->].
      destruct Hclr as [?|[?|?]]; discriminate.
  - rewrite elem_of_union, elem_of_difference, elem_of_union.
    rewrite !elem_of_difference, !elem_of_referent.
    intros [Hin|[[Hin|[[_ Hin] _]] _]].
    + apply Hnsite in Hin as [? _]. discriminate.
    + injection Hin as ->. destruct Hclr as [?|[?|?]]; discriminate.
    + by apply Hin.
  - rewrite setProvincePolygonVisibility_fst.
    rewrite (run_provpoly_fst _ _ _ _ Hrun). apply initial_provpoly_fst.
  - intros g st Hin.
    apply setProvincePolygonVisibility_elem in Hin as [-> _].
    destruct (decide (props_region g = props_region f)) as [Hr|Hr].
    + rewrite bool_decide_eq_true_2 by congruence.
      split; [done|]. intros _ H0. vm_compute in H0. discriminate H0.
    + rewrite bool_decide_eq_false_2 by congruence.
      split; [|done]. intros Hn. destruct Hn. reflexivity.
  - done.
  - intros q. rewrite <- province_site_layers_dom.
    rewrite elem_of_union, elem_of_referent. split.
    + intros [Hin|Hin].
      * apply Hnsite in Hin as [Hq ?]. by injection Hq as ->.
      * exfalso. eapply site_fg_hidden; [|exact Hin].
        intros q' Hq'. apply elem_of_union in Hq' as [Hq'|Hq'].
        -- apply elem_of_referent in Hq'.
           injection Hq' as ->. destruct Hclr as [?|[?|?]]; discriminate.
        -- apply Hdom. apply elem_of_difference in Hq' as [Hq' _].
           by apply elem_of_difference in Hq' as [Hq' _].
    + intros [-> Hq]. left. by rewrite bool_decide_eq_true_2.
Qed.

(** C3.  The region-click handler never assigns the script's
    [currentRegion] variable: after the first click on a region polygon
    of the freshly loaded page the variable is still [null], whatever
    region was clicked. *)
Theorem region_click_leaves_currentRegion_null
    (sheet : list raw_row) (features : list raw_feature) (f : feature) :
  exists b,
    run (the_page (clean sheet)) [RegionClick f]
        (initial (clean sheet) (load_prov_gdf features)) = Ok b
    /\ currentRegion b = None.
Proof.
  unfold run. simpl. rewrite region_click_eq. simpl. eauto.
Qed.

Lemma round_trip_sets (X S C sel : gset layer) (rc : layer) :
  sel ⊆ C -> rc ∈ X -> rc ∉ C -> rc ∉ S -> X ## C -> X ## S ->
  ({[ rc ]} ∪ (sel ∪ (X ∖ {[ rc ]} ∖ C)) ∖ S) ∖ C ∖ S = X.
Proof.
  intros Hsel Hrc HrcC HrcS HXC HXS. apply set_eq. intros l.
  destruct (decide (l = rc)) as [->|Hne]; (clear_library; set_solver).
Qed.

Lemma setProvincePolygonVisibility_provpoly (r : option string) (b : browser) :
  provpoly (setProvincePolygonVisibility r b)
  = (fun e : feature * style =>
       (e.1, setStyle (if bool_decide (Some (props_region e.1) = r) then 0.35 else 0.0)%Q
                      (if bool_decide (Some (props_region e.1) = r) then 1 else 0)%Q e.2))
      <$> provpoly b.
Proof. reflexivity. Qed.

(** C4 (amended).  From the freshly loaded page, a click on any region
    polygon followed by a click on the back control completes and gives
    back exactly the layers on the map, the view (centre and zoom) and
    the [null] active region of the loaded page; every province polygon
    gets back its fill colour, stroke colour and fill opacity 0.0, and
    its stroke weight is 0. *)
Theorem region_then_back_round_trip
    (sheet : list raw_row) (features : list raw_feature) (f : feature) :
  exists b,
    run (the_page (clean sheet)) [RegionClick f; BackClick]
        (initial (clean sheet) (load_prov_gdf features)) = Ok b
    /\ on_map b = on_map (initial (clean sheet) (load_prov_gdf features))
    /\ view b = view (initial (clean sheet) (load_prov_gdf features))
    /\ currentRegion b
       = currentRegion (initial (clean sheet) (load_prov_gdf features))
    /\ provpoly b
       = (fun e : feature * style =>
            (e.1, {| fillColor := fillColor e.2; color := color e.2;
                     weight := 0; fillOpacity := fillOpacity e.2 |}))
           <$> provpoly (initial (clean sheet) (load_prov_gdf features)).
Proof.
  set (df := clean sheet). set (prov_gdf := load_prov_gdf features).
  unfold run. simpl forEach. rewrite region_click_eq. cbn -[the_page initial].
  rewrite back_click_eq. cbn -[the_page initial setProvincePolygonVisibility].
  eexists. split; [reflexivity|].
  cbn -[the_page initial setProvincePolygonVisibility].
  split; [|split; [reflexivity|split; [reflexivity|]]].
  - rewrite the_page_selected_count_layer, the_page_count_layers.
    rewrite the_page_window_fixed by (rewrite !elem_of_cons; auto 10).
    rewrite initial_on_map.
    assert (Hso : forall l, l ∈ site_objs (the_page df) -> exists p, l = site_fg p).
    { intros l Hl. apply the_page_site_objs in Hl as (p & -> & _). eauto. }
    pose proof (prov_counts_layer_by_region_range (props_region f)) as Hrange.
    simpl referent at 1.
    apply round_trip_sets.
    + intros l Hl. apply elem_of_referent in Hl.
      rewrite !elem_of_union, !elem_of_singleton.
      destruct (Hrange l Hl) as [-> | [-> | ->]]; tauto.
    + rewrite !elem_of_union, !elem_of_singleton. tauto.
    + rewrite !elem_of_union, !elem_of_singleton. intros [[?|?]|?]; discriminate.
    + intros Hs. apply Hso in Hs as [p ?]. discriminate.
    + intros l. rewrite !elem_of_union, !elem_of_singleton.
      intros [[-> | ->] | ->] [[?|?]|?]; discriminate.
    + intros l. rewrite !elem_of_union, !elem_of_singleton.
      intros Hl Hs. apply Hso in Hs as [p ->].
      destruct Hl as [[?|?]|?]; discriminate.
  - unfold setProvincePolygonVisibility, with_provpoly, initial.
    cbn [provpoly].
    rewrite <- !list_fmap_compose.
    apply list_fmap_ext. intros i g Hg. simpl.
    rewrite bool_decide_eq_false_2; [reflexivity|].
    intros [= Hnone].
    apply list_elem_of_lookup_2 in Hg.
    apply load_prov_gdf_region in Hg as (_ & _ & _ & _ & Hne). done.
Qed.

(** C8.  The two layer helpers are idempotent and never throw: a second
    [removeLayerIfPresent] (or [addLayerIfMissing]) on the same reference
    leaves the state the first call produced, and a call on a layer that
    is already off (respectively on) the map returns the state
    unchanged. *)
Theorem show_hide_idempotent (layerObj : option layer) (b : browser) :
  (exists b1, removeLayerIfPresent layerObj b = Ok b1
              /\ removeLayerIfPresent layerObj b1 = Ok b1)
  /\ (exists b1, addLayerIfMissing layerObj b = Ok b1
                 /\ addLayerIfMissing layerObj b1 = Ok b1)
  /\ (forall l, l ∉ on_map b -> removeLayerIfPresent (Some l) b = Ok b)
  /\ (forall l, l ∈ on_map b -> addLayerIfMissing (Some l) b = Ok b).
Proof.
  split; [|split; [|split]].
  - eexists. split; [apply removeLayerIfPresent_eq|].
    rewrite removeLayerIfPresent_eq. f_equal.
    unfold with_on_map; simpl. f_equal.
    generalize (referent layerObj) (on_map b). intros R X. (clear_library; set_solver).
  - eexists. split; [apply addLayerIfMissing_eq|].
    rewrite addLayerIfMissing_eq. f_equal.
    unfold with_on_map; simpl. f_equal.
    generalize (referent layerObj) (on_map b). intros R X. (clear_library; set_solver).
  - intros l Hl. unfold removeLayerIfPresent. simpl.
    by rewrite bool_decide_eq_false_2.
  - intros l Hl. unfold addLayerIfMissing. simpl.
    by rewrite bool_decide_eq_true_2.
Qed.


(** ** Cleaning and counting *)

Lemma clean_elem (sheet : list raw_row) (r : row) :
  r ∈ clean sheet <->
  exists raw, raw ∈ sheet
    /\ isin (raw_Site_User raw) valid_users
    /\ notna (raw_Latitude raw) && notna (raw_Longitude raw)
    /\ between 41.7 83.1 (raw_Latitude raw)
       && between (-141.0) (-52.6) (raw_Longitude raw)
    /\ assign_columns raw = Some r.
Proof.
  unfold clean. rewrite list_elem_of_omap. split.
  - intros (raw & Hin & Hr). exists raw.
    apply list_elem_of_filter in Hin as [Hb Hin].
    apply list_elem_of_filter in Hin as [Hn Hin].
    apply list_elem_of_filter in Hin as [Hu Hin]. done.
  - intros (raw & Hin & Hu & Hn & Hb & Hr). exists raw. split; [|done].
    repeat (apply list_elem_of_filter; split; [done|]). done.
Qed.

Lemma assign_columns_Some (raw : raw_row) (r : row) :
  assign_columns raw = Some r ->
  Category r = fillna 0 (to_numeric (raw_Category raw))
  /\ Latitude r = raw_Latitude raw
  /\ Longitude r = raw_Longitude raw
  /\ Site_User r = raw_Site_User raw
  /\ CODE_TO_NAME !! ProvCode r = Some (province_name r)
  /\ province_to_region (province_name r) = Some (region r).
Proof.
  unfold assign_columns. intros H.
  destruct (CODE_TO_NAME !! _) as [pn|] eqn:Hpn; simpl in H; [|done].
  destruct (province_to_region pn) as [reg|] eqn:Hreg; simpl in H; [|done].
  injection H as <-. simpl. done.
Qed.

(** Every cleaned row carries the region of its province. *)
Lemma clean_region (sheet : list raw_row) (r : row) :
  r ∈ clean sheet -> province_to_region (province_name r) = Some (region r).
Proof.
  intros Hr. apply clean_elem in Hr as (raw & _ & _ & _ & _ & Hr).
  by apply assign_columns_Some in Hr as (_ & _ & _ & _ & _ & ?).
Qed.

(** [groupby(key).size()] counts the rows of each key; a key with no row
    is absent from the dict. *)
Lemma groupby_size_lookup {A K : Type} `{Countable K}
    (key : A -> K) (df : list A) (k : K) :
  dict_get (groupby_size key df) k 0%nat
  = length (filter (fun r => key r = k) df).
Proof.
  unfold dict_get. induction df as [|r df IH]; simpl.
  - by rewrite lookup_empty.
  - rewrite filter_cons. destruct (decide (key r = k)) as [->|Hne].
    + rewrite lookup_insert_eq. simpl. by rewrite IH.
    + by rewrite lookup_insert_ne.
Qed.

(** ** The count marker loops *)

Lemma dict_get_add_count_marker (fg0 fg : layer) (lat lon : Q) (count : nat)
    (color tooltip : string) (children : gmap layer (list count_marker)) :
  dict_get (add_count_marker fg0 lat lon count color tooltip children) fg []
  = (dict_get children fg []
     ++ if decide (fg = fg0)
        then [ {| cm_lat := lat; cm_lon := lon; cm_count := count;
                  cm_color := color; cm_tooltip := tooltip;
                  cm_interactive := false |} ]
        else [])%list.
Proof.
  unfold add_count_marker, dict_get.
  destruct (decide (fg = fg0)) as [->|Hne].
  - by rewrite lookup_insert_eq.
  - rewrite lookup_insert_ne by done. by rewrite app_nil_r.
Qed.

Lemma filter_none {A : Type} (P : A -> Prop) `{forall x, Decision (P x)}
    (l : list A) :
  (forall x, x ∈ l -> ~ P x) -> filter P l = [].
Proof.
  induction l as [|x l IH]; intros Hl; [done|].
  rewrite filter_cons, decide_False by (apply Hl; by left).
  apply IH. intros y Hy. apply Hl. by right.
Qed.

Lemma dict_get_Some {K V : Type} `{Countable K}
    (d : gmap K V) (k : K) (v dflt : V) :
  d !! k = Some v -> dict_get d k dflt = v.
Proof. unfold dict_get. by intros ->. Qed.

Lemma region_marker_loop_spec (regions_gdf : list feature)
    (cr : gmap string nat) (children : gmap layer (list count_marker)) :
  (forall r, r ∈ regions_gdf -> is_Some (REGION_COLOR !! props_region r)) ->
  exists children',
    region_marker_loop regions_gdf cr children = Some children'
    /\ forall fg,
         dict_get children' fg []
         = (dict_get children fg []
            ++ if decide (fg = region_counts_layer)
               then region_badge cr <$> regions_gdf else [])%list.
Proof.
  unfold region_marker_loop.
  revert children. induction regions_gdf as [|r rs IH]; intros children Hcol.
  - exists children. split; [done|]. intros fg.
    destruct (decide _); by rewrite app_nil_r.
  - destruct (Hcol r) as [c Hc]; [by left|].
    destruct (IH (add_count_marker region_counts_layer
                    (py (centroid (feat_geometry r))) (px (centroid (feat_geometry r)))
                    (dict_get cr (props_region r) 0%nat) c
                    (props_region r ++ ": "
                     ++ pretty (dict_get cr (props_region r) 0%nat) ++ " sites")
                    children))
      as (children' & Hloop & Hget).
    { intros r' Hr'. apply Hcol. by right. }
    exists children'. split.
    + simpl. rewrite Hc. simpl. exact Hloop.
    + intros fg. rewrite Hget, dict_get_add_count_marker.
      rewrite <- app_assoc. f_equal.
      destruct (decide (fg = region_counts_layer)); [|done].
      simpl. f_equal. unfold region_badge.
      by rewrite (dict_get_Some REGION_COLOR _ c).
Qed.

Lemma province_marker_loop_spec (prov_gdf : list feature)
    (cp : gmap (string * string) nat) (children : gmap layer (list count_marker)) :
  (forall pr, pr ∈ prov_gdf ->
     is_Some (prov_counts_layer_by_region !! props_region pr)
     /\ is_Some (REGION_COLOR !! props_region pr)) ->
  exists children',
    province_marker_loop prov_gdf cp children = Some children'
    /\ forall fg,
         dict_get children' fg []
         = (dict_get children fg []
            ++ (province_badge cp
                  <$> filter (fun pr => prov_counts_layer_by_region !! props_region pr
                                        = Some fg) prov_gdf))%list.
Proof.
  unfold province_marker_loop.
  revert children. induction prov_gdf as [|pr prs IH]; intros children Hcol.
  - exists children. split; [done|]. intros fg. by rewrite app_nil_r.
  - destruct (Hcol pr) as [[l Hl] [c Hc]]; [by left|].
    destruct (IH (add_count_marker l
                    (py (centroid (feat_geometry pr))) (px (centroid (feat_geometry pr)))
                    (dict_get cp (props_region pr, props_name pr) 0%nat) c
                    (props_name pr ++ ": "
                     ++ pretty (dict_get cp (props_region pr, props_name pr) 0%nat)
                     ++ " sites")
                    children))
      as (children' & Hloop & Hget).
    { intros pr' Hpr'. apply Hcol. by right. }
    exists children'. split.
    + simpl. rewrite Hl. simpl. rewrite Hc. simpl. exact Hloop.
    + intros fg. rewrite Hget, dict_get_add_count_marker.
      rewrite <- app_assoc. f_equal.
      rewrite filter_cons.
      destruct (decide (fg = l)) as [->|Hne].
      * rewrite decide_True by done. simpl. f_equal.
        unfold province_badge.
        by rewrite (dict_get_Some REGION_COLOR _ c).
      * rewrite decide_False by congruence. done.
Qed.

Lemma dissolve_elem (prov_gdf : list feature) (r : feature) :
  r ∈ dissolve prov_gdf ->
  exists first,
    first ∈ prov_gdf
    /\ props_region first = props_region r
    /\ props_name r = props_name first
    /\ feat_geometry r
       = unary_union (feat_geometry
                        <$> filter (fun pr => props_region pr = props_region r) prov_gdf).
Proof.
  unfold dissolve. intros Hr.
  apply list_elem_of_omap in Hr as ([k sub] & Hg & Hr). simpl in Hr.
  apply groupby_elem in Hg as [_ ->].
  destruct (head _) as [first|] eqn:Hhead; simpl in Hr; [|done].
  injection Hr as <-. simpl.
  apply head_Some_elem_of in Hhead.
  apply list_elem_of_filter in Hhead as [Hk Hin]. eauto.
Qed.

Lemma dissolve_region (prov_gdf : list feature) (reg : string) :
  reg ∈ props_region <$> prov_gdf ->
  exists r, r ∈ dissolve prov_gdf /\ props_region r = reg.
Proof.
  intros Hreg. unfold dissolve.
  destruct (filter (fun pr => props_region pr = reg) prov_gdf) as [|first sub] eqn:Hf.
  - apply list_elem_of_fmap in Hreg as (pr & -> & Hpr).
    assert (pr ∈ filter (fun pr0 => props_region pr0 = props_region pr) prov_gdf) as Hin
      by (by apply list_elem_of_filter).
    rewrite Hf in Hin. by apply elem_of_nil in Hin.
  - exists {| props_name := props_name first; props_region := reg;
              feat_geometry := unary_union (feat_geometry <$> first :: sub) |}.
    split; [|reflexivity]. apply list_elem_of_omap.
    exists (reg, first :: sub). split.
    + apply groupby_elem. by rewrite Hf.
    + reflexivity.
Qed.

(** Both loops run to completion on any sheet and boundary file (no
    [KeyError]), and leave these badges in the count layers. *)
Lemma count_markers_spec (sheet : list raw_row) (features : list raw_feature) :
  exists children,
    count_markers sheet features = Some children
    /\ dict_get children region_counts_layer []
       = region_badge (counts_region (clean sheet))
           <$> dissolve (load_prov_gdf features)
    /\ forall reg fg,
         prov_counts_layer_by_region !! reg = Some fg ->
         dict_get children fg []
         = province_badge (counts_prov (clean sheet))
             <$> filter (fun pr => props_region pr = reg) (load_prov_gdf features).
Proof.
  unfold count_markers.
  destruct (region_marker_loop_spec (dissolve (load_prov_gdf features))
              (counts_region (clean sheet)) ∅) as (c1 & H1 & Hg1).
  { intros r Hr. apply dissolve_elem in Hr as (first & Hin & <- & _).
    apply load_prov_gdf_region in Hin as (_ & c & _ & -> & _). eauto. }
  destruct (province_marker_loop_spec (load_prov_gdf features)
              (counts_prov (clean sheet)) c1) as (c2 & H2 & Hg2).
  { intros pr Hpr. apply load_prov_gdf_region in Hpr as (l & c & -> & -> & _). eauto. }
  exists c2. split; [rewrite H1; simpl; exact H2|]. split.
  - rewrite Hg2, Hg1. rewrite decide_True by done.
    unfold dict_get at 1. rewrite lookup_empty. simpl.
    rewrite filter_none; [by rewrite fmap_nil, app_nil_r|]. intros pr _ Hl.
    apply prov_counts_layer_by_region_range in Hl as [?|[?|?]]; discriminate.
  - intros reg fg Hfg. rewrite Hg2, Hg1.
    rewrite decide_False.
    2:{ intros ->. apply prov_counts_layer_by_region_range in Hfg as [?|[?|?]];
        discriminate. }
    unfold dict_get at 1. rewrite lookup_empty. simpl. f_equal.
    apply list_filter_iff. intros pr. split.
    + intros Hl. rewrite prov_counts_layer_by_region_lookup in Hl, Hfg.
      repeat case_bool_decide; simplify_eq; done.
    + by intros ->.
Qed.

(** ** Counting lemmas *)

Lemma length_filter_or {A : Type} (P Q : A -> Prop)
    `{forall x, Decision (P x)} `{forall x, Decision (Q x)} (l : list A) :
  (forall x, P x -> Q x -> False) ->
  length (filter (fun x => P x \/ Q x) l)
  = (length (filter P l) + length (filter Q l))%nat.
Proof.
  intros Hdisj. induction l as [|x l IH]; [done|].
  rewrite !filter_cons.
  destruct (decide (P x)) as [HP|HP], (decide (Q x)) as [HQ|HQ].
  - destruct (Hdisj x HP HQ).
  - rewrite decide_True by auto. simpl. by rewrite IH.
  - rewrite decide_True by auto. simpl. rewrite IH. lia.
  - rewrite decide_False by tauto. exact IH.
Qed.

Lemma filter_ext_in {A : Type} (P Q : A -> Prop)
    `{forall x, Decision (P x)} `{forall x, Decision (Q x)} (l : list A) :
  (forall x, x ∈ l -> P x <-> Q x) -> filter P l = filter Q l.
Proof.
  induction l as [|x l IH]; intros Hl; [done|].
  rewrite !filter_cons.
  assert (filter P l = filter Q l) as ->.
  { apply IH. intros y Hy. apply Hl. by right. }
  destruct (decide (P x)) as [HP|HP].
  - rewrite decide_True; [done|]. apply Hl; [by left|done].
  - rewrite decide_False; [done|]. intros HQ. apply HP, Hl; [by left|done].
Qed.

Lemma NoDup_fmap_filter {A B : Type} (f : A -> B) (P : A -> Prop)
    `{forall x, Decision (P x)} (l : list A) :
  NoDup (f <$> l) -> NoDup (f <$> filter P l).
Proof.
  induction l as [|x l IH]; [done|].
  rewrite fmap_cons, NoDup_cons, filter_cons. intros [Hx Hl].
  destruct (decide (P x)); [|by apply IH].
  rewrite fmap_cons, NoDup_cons. split; [|by apply IH].
  intros Hin. apply Hx.
  apply list_elem_of_fmap in Hin as (y & -> & Hy).
  apply list_elem_of_filter in Hy as [_ Hy].
  apply list_elem_of_fmap. eauto.
Qed.

(** The rows of a region split by province: summing the per-province
    counts over provinces of distinct names counts each row of those
    provinces once. *)
Lemma sum_province_counts (df : list row) (prs : list feature) (reg : string) :
  NoDup (props_name <$> prs) ->
  (forall pr, pr ∈ prs -> props_region pr = reg) ->
  sum_list ((fun pr =>
               length (filter (fun r => (region r, province_name r)
                                        = (props_region pr, props_name pr)) df))
              <$> prs)
  = length (filter (fun r => region r = reg
                             /\ province_name r ∈ props_name <$> prs) df).
Proof.
  induction prs as [|pr prs IH]; intros Hnd Hreg.
  - simpl. rewrite filter_none; [done|].
    intros r _ [_ Hr]. by apply elem_of_nil in Hr.
  - rewrite fmap_cons, NoDup_cons in Hnd. destruct Hnd as [Hpr Hnd].
    rewrite fmap_cons. simpl sum_list. rewrite IH; [|done|].
    2:{ intros pr' Hpr'. apply Hreg. by right. }
    rewrite <- length_filter_or.
    2:{ intros r [= _ Hn] [_ Hin]. apply Hpr. by rewrite <- Hn. }
    f_equal. apply list_filter_iff. intros r.
    rewrite (Hreg pr) by (by left). rewrite fmap_cons, elem_of_cons.
    split.
    + intros [[= -> ->]|[-> Hin]]; auto.
    + intros [-> [->|Hin]]; auto.
Qed.

(** C5 (amended).  When the boundary file has no two provinces of the
    same name and holds every province that has a cleaned site row, both
    marker loops complete and each region badge shows the sum of the
    counts shown by the badges of that region's province-count layer. *)
Theorem counts_add_up_when_covered
    (sheet : list raw_row) (features : list raw_feature) :
  NoDup (props_name <$> load_prov_gdf features) ->
  (forall r, r ∈ clean sheet ->
             province_name r ∈ props_name <$> load_prov_gdf features) ->
  counts_add_up sheet features.
Proof.
  intros Hnd Hcov.
  destruct (count_markers_spec sheet features) as (children & Hc & Hreg & Hprov).
  exists children. split; [exact Hc|]. intros rg Hrg.
  destruct (dissolve_elem _ _ Hrg) as (first & Hfirst & Hfr & _).
  destruct (load_prov_gdf_region _ _ Hfirst) as (fg & c & Hfg & _ & _).
  rewrite Hfr in Hfg.
  exists fg, (region_badge (counts_region (clean sheet)) rg).
  split; [exact Hfg|]. split.
  { rewrite Hreg. apply list_elem_of_fmap. eauto. }
  split; [reflexivity|].
  rewrite (Hprov _ _ Hfg). rewrite <- list_fmap_compose.
  unfold region_badge, counts_region. simpl cm_count.
  rewrite groupby_size_lookup.
  erewrite list_fmap_ext.
  2:{ intros i pr _. unfold compose, province_badge, counts_prov. simpl cm_count.
      rewrite groupby_size_lookup. reflexivity. }
  rewrite (sum_province_counts _ _ (props_region rg)).
  - f_equal. apply filter_ext_in. intros r Hr. split; [|tauto].
    intros Hreq. split; [done|].
    apply Hcov in Hr as Hin.
    apply list_elem_of_fmap in Hin as (pr & Hn & Hpr).
    apply list_elem_of_fmap. exists pr. split; [done|].
    apply list_elem_of_filter. split; [|done].
    apply load_prov_gdf_elem in Hpr as (_ & _ & _ & Hpreg & _).
    apply clean_region in Hr. rewrite Hn, Hpreg in Hr. congruence.
  - by apply NoDup_fmap_filter.
  - intros pr Hpr. by apply list_elem_of_filter in Hpr as [? _].
Qed.



Lemma isin_true (c : cell) (values : list string) :
  isin c values <-> exists s, c = CStr s /\ s ∈ values.
Proof.
  destruct c as [s|x]; simpl.
  - rewrite bool_decide_spec. split; [eauto|]. by intros (s' & [= <-] & ?).
  - split; [done|]. by intros (s' & ? & _).
Qed.

(** C10.  A row whose site-user cell is not exactly one of the strings
    "DFO", "Shared-DFO" and "SCH" changes nothing downstream: the cleaned
    frame, the count badges and the per-province site bundles are the
    same with and without it. *)
Theorem invalid_user_rows_excluded
    (sheet1 sheet2 : list raw_row) (rr : raw_row) (features : list raw_feature) :
  (forall s, s ∈ ["DFO"; "Shared-DFO"; "SCH"] -> raw_Site_User rr <> CStr s) ->
  clean (sheet1 ++ rr :: sheet2) = clean (sheet1 ++ sheet2)
  /\ counts_region (clean (sheet1 ++ rr :: sheet2))
     = counts_region (clean (sheet1 ++ sheet2))
  /\ counts_prov (clean (sheet1 ++ rr :: sheet2))
     = counts_prov (clean (sheet1 ++ sheet2))
  /\ count_markers (sheet1 ++ rr :: sheet2) features
     = count_markers (sheet1 ++ sheet2) features
  /\ site_layer_loop (clean (sheet1 ++ rr :: sheet2))
     = site_layer_loop (clean (sheet1 ++ sheet2)).
Proof.
  intros Huser.
  assert (Hclean : clean (sheet1 ++ rr :: sheet2) = clean (sheet1 ++ sheet2)).
  { unfold clean. do 3 f_equal.
    rewrite !filter_app, filter_cons, decide_False; [done|].
    intros Hin. apply isin_true in Hin as (s & Hs & Hv). by apply (Huser s). }
  unfold count_markers. by rewrite Hclean.
Qed.

(** After a region click and a back click every province polygon has
    stroke weight 0. *)
Lemma region_then_back_weight (df : list row) (prov_gdf : list feature)
    (f : feature) (b : browser) (g : feature) (st : style) :
  run (the_page df) [RegionClick f; BackClick] (initial df prov_gdf) = Ok b ->
  (g, st) ∈ provpoly b ->
  props_region g <> "__NONE__" ->
  weight st = 0%Q.
Proof.
  unfold run. simpl forEach. rewrite region_click_eq. cbn -[the_page initial].
  rewrite back_click_eq. intros [= <-] Hin Hne.
  apply list_elem_of_fmap in Hin as ([g0 st0] & [= -> ->] & _).
  cbn [weight setStyle fst snd].
  rewrite bool_decide_eq_false_2; [done|]. congruence.
Qed.

(** ** More on cleaning *)

(** Every full name of [CODE_TO_NAME] is in one of the three region
    sets. *)
Lemma CODE_TO_NAME_regions (code name : string) :
  CODE_TO_NAME !! code = Some name -> is_Some (province_to_region name).
Proof.
  assert (Hall : map_Forall (fun _ name => is_Some (province_to_region name))
                   CODE_TO_NAME).
  { apply (bool_decide_unpack _). vm_compute. exact I. }
  apply Hall.
Qed.

Lemma between_true (lo hi : Q) (x : num) :
  between lo hi x <-> exists q, x = Fin q /\ (lo <= q /\ q <= hi)%Q.
Proof.
  destruct x as [q| |]; simpl.
  - rewrite andb_True, !Is_true_true, !Qle_bool_iff. split.
    + intros ?. by exists q.
    + by intros (q' & [= <-] & ?).
  - split; [done|]. by intros (q' & ? & _).
  - split; [done|]. by intros (q' & ? & _).
Qed.

(** X1.  A row of the sheet survives cleaning exactly when its user cell
    is one of the three valid strings, both coordinates are finite and
    inside the window (bounds included), and its normalised province
    code, with "OC" read as "BC", is a key of [CODE_TO_NAME]; no row is
    lost at the region step. *)
Theorem clean_retention (raw : raw_row) :
  (exists r, clean [raw] = [r])
  <-> (exists s, raw_Site_User raw = CStr s /\ s ∈ ["DFO"; "Shared-DFO"; "SCH"])
      /\ (exists lat lon,
            raw_Latitude raw = Fin lat /\ raw_Longitude raw = Fin lon
            /\ (41.7 <= lat /\ lat <= 83.1)%Q
            /\ (-141.0 <= lon /\ lon <= -52.6)%Q)
      /\ is_Some (CODE_TO_NAME
                    !! (if bool_decide
                             (str_upper (str_strip (astype_str (raw_Province raw)))
                              = "OC")
                        then "BC"
                        else str_upper (str_strip (astype_str (raw_Province raw))))).
Proof.
  split.
  - intros [r Hr].
    assert (Hin : r ∈ clean [raw]) by (rewrite Hr; by left).
    apply clean_elem in Hin as (raw' & Hraw & Hu & _ & Hb & Ha).
    apply list_elem_of_singleton in Hraw as ->.
    split; [by apply isin_true|].
    apply andb_True in Hb as [Hlat Hlon].
    apply between_true in Hlat as (lat & Hlat & ?).
    apply between_true in Hlon as (lon & Hlon & ?).
    split; [exists lat, lon; done|].
    unfold assign_columns in Ha.
    destruct (CODE_TO_NAME !! _) as [pn|]; [eauto|done].
  - intros (Hu & (lat & lon & Hlat & Hlon & Hblat & Hblon) & [pn Hpn]).
    destruct (CODE_TO_NAME_regions _ _ Hpn) as [reg Hreg].
    unfold clean. simpl.
    rewrite !filter_cons, !filter_nil.
    rewrite decide_True by (by apply isin_true). rewrite filter_cons, filter_nil.
    rewrite decide_True by (by rewrite Hlat, Hlon). rewrite filter_cons, filter_nil.
    rewrite decide_True.
    2:{ apply andb_True. split; apply between_true; eauto. }
    simpl. unfold assign_columns. rewrite Hpn. simpl. rewrite Hreg. simpl. eauto.
Qed.

(** X2.  A row whose normalised province code is "OC" is kept as a
    British Columbia row of the Purple Region, its code column rewritten
    to "BC". *)
Theorem oc_rows_count_as_bc (raw : raw_row) :
  str_upper (str_strip (astype_str (raw_Province raw))) = "OC" ->
  exists r,
    assign_columns raw = Some r
    /\ ProvCode r = "BC"
    /\ province_name r = "British Columbia"
    /\ region r = "Purple Region".
Proof.
  intros Hoc. unfold assign_columns. rewrite Hoc. simpl.
  eexists. split; [reflexivity|]. done.
Qed.

Lemma length_omap_le {A B : Type} (f : A -> option B) (l : list A) :
  length (omap f l) <= length l.
Proof.
  induction l as [|x l IH]; [done|].
  change (omap f (x :: l))
    with (match f x with Some y => y :: omap f l | None => omap f l end).
  destruct (f x); simpl; lia.
Qed.

(** X3.  Cleaning works row by row: the cleaned frame of two sheets put
    end to end is the two cleaned frames put end to end (order kept,
    repeated rows kept), and cleaning never adds rows. *)
Theorem clean_app (sheet1 sheet2 : list raw_row) :
  clean (sheet1 ++ sheet2) = (clean sheet1 ++ clean sheet2)%list
  /\ length (clean sheet1) <= length sheet1.
Proof.
  split.
  - unfold clean. by rewrite !filter_app, omap_app.
  - unfold clean. etrans; [apply length_omap_le|].
    etrans; [apply length_filter|]. etrans; [apply length_filter|].
    apply length_filter.
Qed.

(** X4.  Every row of the cleaned frame has a valid user string, finite
    coordinates inside the window, a category that is not NaN, a code
    other than "OC" whose full name is the row's province, and the
    region of that province. *)
Theorem cleaned_row_invariants (sheet : list raw_row) (r : row) :
  r ∈ clean sheet ->
  (exists s, Site_User r = CStr s /\ s ∈ ["DFO"; "Shared-DFO"; "SCH"])
  /\ (exists lat lon,
        Latitude r = Fin lat /\ Longitude r = Fin lon
        /\ (41.7 <= lat /\ lat <= 83.1)%Q
        /\ (-141.0 <= lon /\ lon <= -52.6)%Q)
  /\ Category r <> NaN
  /\ ProvCode r <> "OC"
  /\ CODE_TO_NAME !! ProvCode r = Some (province_name r)
  /\ province_to_region (province_name r) = Some (region r).
Proof.
  intros Hr. apply clean_elem in Hr as (raw & _ & Hu & _ & Hb & Ha).
  apply isin_true in Hu.
  apply andb_True in Hb as [Hlat Hlon].
  apply between_true in Hlat as (lat & Hlat & ?).
  apply between_true in Hlon as (lon & Hlon & ?).
  unfold assign_columns in Ha.
  destruct (CODE_TO_NAME !! _) as [pn|] eqn:Hpn; simpl in Ha; [|done].
  destruct (province_to_region pn) as [reg|] eqn:Hreg; simpl in Ha; [|done].
  injection Ha as <-. simpl.
  split; [done|]. split; [by exists lat, lon|].
  split; [by destruct (to_numeric (raw_Category raw))|].
  split; [|done].
  case_bool_decide as Hoc; [done|]. exact Hoc.
Qed.

(** ** More on counting *)

Lemma length_filter_all {A : Type} (P : A -> Prop) `{forall x, Decision (P x)}
    (l : list A) :
  (forall x, x ∈ l -> P x) -> length (filter P l) = length l.
Proof.
  induction l as [|x l IH]; intros Hl; [done|].
  rewrite filter_cons, decide_True by (apply Hl; by left).
  simpl. f_equal. apply IH. intros y Hy. apply Hl. by right.
Qed.

(** A key is in the dict of [groupby(key).size()] only with a positive
    count. *)
Lemma groupby_size_Some {A K : Type} `{Countable K}
    (key : A -> K) (df : list A) (k : K) (n : nat) :
  groupby_size key df !! k = Some n -> (0 < n)%nat.
Proof.
  revert n. induction df as [|r l IH]; intros n Hn; simpl in Hn.
  - by rewrite lookup_empty in Hn.
  - destruct (decide (key r = k)) as [Heq|Hne].
    + rewrite Heq, lookup_insert_eq in Hn. injection Hn as <-. lia.
    + rewrite lookup_insert_ne in Hn by done. exact (IH n Hn).
Qed.

(** X5.  The three region counts add up to the number of cleaned rows,
    and the region dict has no other key. *)
Theorem region_counts_total (sheet : list raw_row) :
  (dict_get (counts_region (clean sheet)) "Purple Region" 0
   + dict_get (counts_region (clean sheet)) "Green Region" 0
   + dict_get (counts_region (clean sheet)) "Orange Region" 0
   = length (clean sheet))%nat
  /\ forall reg, is_Some (counts_region (clean sheet) !! reg) ->
                 reg = "Purple Region" \/ reg = "Green Region"
                 \/ reg = "Orange Region".
Proof.
  assert (Hreg : forall r, r ∈ clean sheet ->
    region r = "Purple Region" \/ region r = "Green Region"
    \/ region r = "Orange Region").
  { intros r Hr. apply clean_region in Hr. by apply province_to_region_range in Hr. }
  split.
  - unfold counts_region. rewrite !groupby_size_lookup.
    rewrite <- !length_filter_or.
    + apply length_filter_all. intros r Hr.
      destruct (Hreg r Hr) as [?|[?|?]]; auto.
    + intros r [Hp|Hg] Ho; congruence.
    + intros r Hp Hg; congruence.
  - intros reg [n Hn].
    destruct (decide (0 < dict_get (counts_region (clean sheet)) reg 0)%nat) as [Hpos|Hz].
    + unfold counts_region in Hpos. rewrite groupby_size_lookup in Hpos.
      destruct (filter (fun r => region r = reg) (clean sheet)) as [|r l] eqn:Hf;
        [simpl in Hpos; lia|].
      assert (Hr : r ∈ filter (fun r => region r = reg) (clean sheet))
        by (rewrite Hf; by left).
      apply list_elem_of_filter in Hr as [<- Hr]. by apply Hreg.
    + exfalso. apply Hz. unfold dict_get. rewrite Hn. simpl.
      by eapply groupby_size_Some.
Qed.

(** X6.  For any frame, a region's count is the sum, over the distinct
    province names of the frame, of the (region, province) counts. *)
Theorem region_count_sums_province_counts (df : list row) (reg : string) :
  dict_get (counts_region df) reg 0
  = sum_list ((fun p => dict_get (counts_prov df) (reg, p) 0)
                <$> remove_dups (province_name <$> df)).
Proof.
  clear_library.
  unfold counts_region, counts_prov. rewrite groupby_size_lookup.
  erewrite list_fmap_ext.
  2:{ intros i p _. rewrite groupby_size_lookup. reflexivity. }
  assert (Hsum : forall names : list string, NoDup names ->
    sum_list ((fun p => length (filter (fun r => (region r, province_name r)
                                              = (reg, p)) df)) <$> names)
    = length (filter (fun r => region r = reg /\ province_name r ∈ names) df)).
  { induction names as [|p names IH]; intros Hnd.
    - simpl. rewrite filter_none; [done|].
      intros r _ [_ Hr]. by apply elem_of_nil in Hr.
    - apply NoDup_cons in Hnd as [Hp Hnd].
      rewrite fmap_cons. simpl sum_list. rewrite IH by done.
      rewrite <- length_filter_or.
      2:{ intros r [= _ Hn] [_ Hin]. apply Hp. by rewrite <- Hn. }
      f_equal. apply list_filter_iff. intros r. rewrite elem_of_cons. split.
      + intros [[= -> ->]|[-> Hin]]; auto.
      + intros [-> [->|Hin]]; auto. }
  rewrite Hsum by apply NoDup_remove_dups.
  f_equal. apply filter_ext_in. intros r Hr. split; [|tauto].
  intros Hreg. split; [done|].
  apply elem_of_remove_dups, list_elem_of_fmap. eauto.
Qed.

(** X7.  A province's site bundle has one heat point and one cluster
    marker per cleaned row of that province, at least one, and as many as
    the count of that province under its own region in [counts_prov]. *)
Theorem bundle_size_matches_count (sheet : list raw_row) (prov_name : string)
    (fg : layer) (bundle : site_bundle) :
  (prov_name, fg, bundle) ∈ site_layer_loop (clean sheet) ->
  fg = site_fg prov_name
  /\ length (heat_data bundle) = length (cluster bundle)
  /\ (0 < length (heat_data bundle))%nat
  /\ exists reg,
       province_to_region prov_name = Some reg
       /\ length (heat_data bundle)
          = dict_get (counts_prov (clean sheet)) (reg, prov_name) 0.
Proof.
  unfold site_layer_loop. intros Hb.
  apply list_elem_of_fmap in Hb as ([k sub] & [= -> -> ->] & Hg).
  apply groupby_elem in Hg as [Hk ->]. simpl.
  unfold make_heat_data, make_cluster. rewrite !length_fmap.
  apply list_elem_of_fmap in Hk as (r0 & -> & Hr0).
  split; [done|]. split; [done|]. split.
  - destruct (filter _ (clean sheet)) as [|x l] eqn:Hf; [|simpl; lia].
    assert (Hin : r0 ∈ filter (fun r => province_name r = province_name r0)
                         (clean sheet)) by (by apply list_elem_of_filter).
    rewrite Hf in Hin. by apply elem_of_nil in Hin.
  - exists (region r0). split; [by apply (clean_region sheet)|].
    unfold counts_prov. rewrite groupby_size_lookup. f_equal.
    apply filter_ext_in. intros r Hr. split.
    + intros Hn. f_equal; [|done].
      apply (clean_region sheet) in Hr. apply (clean_region sheet) in Hr0.
      rewrite Hn in Hr. congruence.
    + by intros [= _ ?].
Qed.

(** X8.  For any frame, [prov_site_map] has an entry for a province
    exactly when some row of the frame is in that province, and the
    entry names that province's own feature group. *)
Theorem prov_site_map_lookup (df : list row) (p : string) (l : layer) :
  prov_site_map df !! p = Some l
  <-> l = site_fg p /\ exists r, r ∈ df /\ province_name r = p.
Proof.
  unfold prov_site_map. rewrite lookup_fmap. unfold get_name.
  destruct (province_site_layers df !! p) as [l'|] eqn:Hl; simpl.
  - assert (Hd : p ∈ dom (province_site_layers df)) by (apply elem_of_dom; eauto).
    apply province_site_layers_dom in Hd.
    apply province_site_layers_lookup in Hl as [-> _].
    split; [by intros [= <-]|]. by intros [-> _].
  - apply not_elem_of_dom in Hl. rewrite province_site_layers_dom in Hl.
    split; [done|]. intros [_ Hex]. by destruct Hl.
Qed.

(** ** More on the session *)

Lemma run_app (pg : page) (events1 events2 : list event) (b : browser) :
  run pg (events1 ++ events2) b = run pg events1 b ≫= run pg events2.
Proof.
  unfold run. revert b. induction events1 as [|e events1 IH]; intros b; simpl.
  - reflexivity.
  - destruct (handle pg e b) as [b1|]; simpl; [apply IH|reflexivity].
Qed.

Lemma handle_Ok (pg : page) (e : event) (b : browser) :
  exists b', handle pg e b = Ok b'.
Proof.
  destruct e as [f|f|]; simpl.
  - rewrite region_click_eq. eauto.
  - rewrite province_click_eq. eauto.
  - rewrite back_click_eq. eauto.
Qed.


Lemma initial_overlays_invariant (df : list row) (prov_gdf : list feature) :
  overlays_invariant df (initial df prov_gdf).
Proof.
  unfold overlays_invariant. rewrite initial_on_map.
  rewrite !elem_of_union, !elem_of_singleton.
  split; [auto 10|]. split; [auto 10|].
  intros l Hl. left. rewrite !elem_of_union, !elem_of_singleton in Hl.
  rewrite !elem_of_cons. destruct Hl as [[->| ->]| ->]; auto 10.
Qed.

(** The layers a click on a region polygon leaves on the map. *)
Lemma region_click_layers (df : list row) (reg : string) (X : gset layer) :
  (province_poly_layer ∈ X) -> (region_layer ∈ X) ->
  (forall l, l ∈ X ->
     l ∈ [region_counts_layer; prov_counts_purple; prov_counts_green;
          prov_counts_orange; province_poly_layer; region_layer]
     \/ exists p, l = site_fg p /\ p ∈ dom (province_site_layers df)) ->
  (selected_count_layer (the_page df) (Some reg)
   ∪ (X ∖ referent (window (the_page df) region_counts_layer)
      ∖ count_layers (the_page df)))
  ∖ site_objs (the_page df)
  = {[ province_poly_layer; region_layer ]}
    ∪ referent (prov_counts_layer_by_region !! reg).
Proof.
  intros Hpp Hrl Hall. apply set_eq. intros l.
  rewrite the_page_selected_count_layer, the_page_count_layers.
  rewrite the_page_window_fixed by (rewrite !elem_of_cons; auto 10).
  rewrite elem_of_difference, the_page_site_objs.
  rewrite !elem_of_union, !elem_of_difference, !elem_of_union, !elem_of_singleton.
  rewrite !elem_of_referent.
  split.
  - intros [[Hsel|[[Hin Hrc] Hc]] Hs]; [by right|].
    destruct (Hall l Hin) as [Hl|(p & -> & Hp)].
    + rewrite !elem_of_cons, elem_of_nil in Hl.
      destruct Hl as [->|[->|[->|[->|[->|[->|[]]]]]]];
        first [by destruct Hrc | by (destruct Hc; auto 10) | by (left; auto)].
    + exfalso. apply Hs. eauto.
  - intros [[->| ->]|Hsel].
    + split.
      * right. split; [split; [done|]|]; [intros [= ?]|intros [[?|?]|?]]; discriminate.
      * intros (p & ? & _). discriminate.
    + split.
      * right. split; [split; [done|]|]; [intros [= ?]|intros [[?|?]|?]]; discriminate.
      * intros (p & ? & _). discriminate.
    + split; [by left|]. intros (p & -> & _).
      apply prov_counts_layer_by_region_range in Hsel as [?|[?|?]]; discriminate.
Qed.

(** The layers a click on the back control leaves on the map. *)
Lemma back_click_layers (df : list row) (X : gset layer) :
  (province_poly_layer ∈ X) -> (region_layer ∈ X) ->
  (forall l, l ∈ X ->
     l ∈ [region_counts_layer; prov_counts_purple; prov_counts_green;
          prov_counts_orange; province_poly_layer; region_layer]
     \/ exists p, l = site_fg p /\ p ∈ dom (province_site_layers df)) ->
  (referent (window (the_page df) region_counts_layer) ∪ X)
  ∖ count_layers (the_page df) ∖ site_objs (the_page df)
  = {[ region_counts_layer; province_poly_layer; region_layer ]}.
Proof.
  intros Hpp Hrl Hall. apply set_eq. intros l.
  rewrite the_page_count_layers.
  rewrite the_page_window_fixed by (rewrite !elem_of_cons; auto 10).
  rewrite elem_of_difference, the_page_site_objs.
  rewrite !elem_of_difference, !elem_of_union, !elem_of_singleton.
  rewrite !elem_of_referent.
  split.
  - intros [[[[= <-]|Hin] Hc] Hs]; [auto 10|].
    destruct (Hall l Hin) as [Hl|(p & -> & Hp)].
    + rewrite !elem_of_cons, elem_of_nil in Hl.
      destruct Hl as [->|[->|[->|[->|[->|[->|[]]]]]]];
        first [by (destruct Hc; auto 10) | by auto 10].
    + exfalso. apply Hs. eauto.
  - intros [[->| ->]| ->].
    + split; [split; [by left|]|]; [intros [[?|?]|?]|intros (p & ? & _)]; discriminate.
    + split; [split; [by right|]|]; [intros [[?|?]|?]|intros (p & ? & _)]; discriminate.
    + split; [split; [by right|]|]; [intros [[?|?]|?]|intros (p & ? & _)]; discriminate.
Qed.

Lemma handle_overlays_invariant (df : list row) (e : event) (b : browser) :
  overlays_invariant df b ->
  exists b', handle (the_page df) e b = Ok b' /\ overlays_invariant df b'.
Proof.
  intros (Hpp & Hrl & Hall).
  assert (Hsix : forall l : layer,
    l ∈ ({[ province_poly_layer; region_layer ]} : gset layer) ->
    l ∈ [region_counts_layer; prov_counts_purple; prov_counts_green;
         prov_counts_orange; province_poly_layer; region_layer]).
  { intros l. rewrite elem_of_union, !elem_of_singleton, !elem_of_cons.
    intros [->| ->]; auto 10. }
  assert (Hcl : forall reg (l : layer),
    l ∈ referent (prov_counts_layer_by_region !! reg) ->
    l ∈ [region_counts_layer; prov_counts_purple; prov_counts_green;
         prov_counts_orange; province_poly_layer; region_layer]).
  { intros reg l Hl. apply elem_of_referent in Hl.
    rewrite !elem_of_cons.
    apply prov_counts_layer_by_region_range in Hl as [->|[->| ->]]; auto 10. }
  destruct e as [f|f|]; simpl.
  - rewrite region_click_eq. eexists; split; [reflexivity|].
    unfold overlays_invariant. cbn [on_map].
    rewrite (region_click_layers df _ _ Hpp Hrl Hall).
    rewrite !elem_of_union, !elem_of_singleton.
    split; [auto 10|]. split; [auto 10|].
    intros l. rewrite elem_of_union. intros [Hl|Hl]; left; eauto.
  - rewrite province_click_eq. eexists; split; [reflexivity|].
    unfold overlays_invariant. cbn [on_map].
    rewrite (region_click_layers df _ _ Hpp Hrl Hall).
    rewrite the_page_site_lookup.
    rewrite !elem_of_union, !elem_of_singleton.
    split; [auto 10|]. split; [auto 10|].
    intros l Hl. apply elem_of_union in Hl as [Hl|Hl].
    + apply elem_of_referent in Hl.
      case_bool_decide; [|discriminate]. injection Hl as <-. right. eauto.
    + apply elem_of_union in Hl as [Hl|Hl]; left; eauto.
  - rewrite back_click_eq. eexists; split; [reflexivity|].
    unfold overlays_invariant. cbn [on_map].
    rewrite (back_click_layers df _ Hpp Hrl Hall).
    rewrite !elem_of_union, !elem_of_singleton.
    split; [auto 10|]. split; [auto 10|].
    intros l. rewrite !elem_of_union, !elem_of_singleton, !elem_of_cons.
    intros [[->| ->]| ->]; auto 10.
Qed.

Lemma run_overlays_invariant (df : list row) (events : list event) (b : browser) :
  overlays_invariant df b ->
  exists b', run (the_page df) events b = Ok b' /\ overlays_invariant df b'.
Proof.
  revert b. induction events as [|e events IH]; intros b Hb.
  - exists b. split; [reflexivity|done].
  - destruct (handle_overlays_invariant df e b Hb) as (b1 & He & Hb1).
    destruct (IH b1 Hb1) as (b' & Hrun & Hb').
    exists b'. split; [|done].
    unfold run in *. simpl. rewrite He. exact Hrun.
Qed.

(** X10.  In whatever state a session has left the page, a click on a
    region polygon completes and leaves on the map exactly the two
    polygon layers and the province-count layer of the clicked region:
    the region badges, the other province-count layers and every site
    bundle are off.  The view requested is the polygon's bounds. *)
Theorem region_click_from_any_state
    (sheet : list raw_row) (features : list raw_feature)
    (events : list event) (f : feature) :
  exists b b',
    run (the_page (clean sheet)) events
        (initial (clean sheet) (load_prov_gdf features)) = Ok b
    /\ region_click (the_page (clean sheet)) f b = Ok b'
    /\ on_map b'
       = {[ province_poly_layer; region_layer ]}
         ∪ referent (prov_counts_layer_by_region !! props_region f)
    /\ view b' = FitBounds (getBounds (feat_geometry f)).
Proof.
  destruct (run_overlays_invariant (clean sheet) events
              (initial (clean sheet) (load_prov_gdf features))
              (initial_overlays_invariant _ _)) as (b & Hrun & Hpp & Hrl & Hall).
  eexists b, _. split; [exact Hrun|]. split; [apply region_click_eq|].
  cbn [on_map view]. split; [|reflexivity].
  by apply region_click_layers.
Qed.

(** X11.  In whatever state a session has left the page, a click on the
    back control completes and gives back the layers of the freshly
    loaded page (region badges and the two polygon layers, nothing
    else), its view and the [null] active region. *)
Theorem back_click_from_any_state
    (sheet : list raw_row) (features : list raw_feature) (events : list event) :
  exists b,
    run (the_page (clean sheet)) (events ++ [BackClick])
        (initial (clean sheet) (load_prov_gdf features)) = Ok b
    /\ on_map b = on_map (initial (clean sheet) (load_prov_gdf features))
    /\ on_map b = {[ region_counts_layer; province_poly_layer; region_layer ]}
    /\ view b = view (initial (clean sheet) (load_prov_gdf features))
    /\ currentRegion b = None.
Proof.
  destruct (run_overlays_invariant (clean sheet) events
              (initial (clean sheet) (load_prov_gdf features))
              (initial_overlays_invariant _ _)) as (b & Hrun & Hpp & Hrl & Hall).
  rewrite run_app, Hrun. unfold run. cbn [mbind result_bind forEach handle].
  rewrite back_click_eq. cbn [mbind result_bind].
  eexists. split; [reflexivity|]. cbn [on_map view currentRegion].
  rewrite initial_on_map.
  split; [by apply back_click_layers|]. split; [by apply back_click_layers|].
  split; reflexivity.
Qed.

Lemma run_Ok (pg : page) (events : list event) (b : browser) :
  exists b', run pg events b = Ok b'.
Proof.
  revert b. induction events as [|e events IH]; intros b.
  - by exists b.
  - destruct (handle_Ok pg e b) as [b1 He].
    destruct (IH b1) as [b' Hrun]. exists b'.
    unfold run in *. simpl. by rewrite He.
Qed.

(** *** The polygons keep their colours *)

Lemma setProvincePolygonVisibility_colours (targetRegion : option string)
    (b : browser) :
  (fun e : feature * style => (e.1, fillColor e.2, color e.2))
    <$> provpoly (setProvincePolygonVisibility targetRegion b)
  = (fun e : feature * style => (e.1, fillColor e.2, color e.2)) <$> provpoly b.
Proof.
  simpl. rewrite <- list_fmap_compose. by apply list_fmap_ext.
Qed.

Lemma handle_provpoly_colours (pg : page) (e : event) (b b' : browser) :
  handle pg e b = Ok b' ->
  (fun e : feature * style => (e.1, fillColor e.2, color e.2)) <$> provpoly b'
  = (fun e : feature * style => (e.1, fillColor e.2, color e.2)) <$> provpoly b.
Proof.
  destruct e as [f|f|]; simpl.
  - rewrite region_click_eq. intros [= <-].
    apply setProvincePolygonVisibility_colours.
  - rewrite province_click_eq. intros [= <-].
    apply setProvincePolygonVisibility_colours.
  - rewrite back_click_eq. intros [= <-].
    apply setProvincePolygonVisibility_colours.
Qed.

Lemma run_provpoly_colours (pg : page) (events : list event) (b b' : browser) :
  run pg events b = Ok b' ->
  (fun e : feature * style => (e.1, fillColor e.2, color e.2)) <$> provpoly b'
  = (fun e : feature * style => (e.1, fillColor e.2, color e.2)) <$> provpoly b.
Proof.
  revert b. induction events as [|e events IH]; intros b; unfold run; simpl.
  - by intros [= <-].
  - destruct (handle pg e b) as [b1|] eqn:He; simpl; [|done].
    intros Hrun. rewrite (IH _ Hrun). by eapply handle_provpoly_colours.
Qed.

(** What a handler does to the polygons, given the region it passes to
    [setProvincePolygonVisibility]. *)
Lemma handle_provpoly (pg : page) (e : event) (b b' : browser) :
  handle pg e b = Ok b' ->
  provpoly b'
  = provpoly (setProvincePolygonVisibility
                (match e with
                 | RegionClick f | ProvinceClick f => Some (props_region f)
                 | BackClick => Some "__NONE__"
                 end) b).
Proof.
  destruct e as [f|f|]; simpl.
  - rewrite region_click_eq. by intros [= <-].
  - rewrite province_click_eq. by intros [= <-].
  - rewrite back_click_eq. by intros [= <-].
Qed.

(** X12.  After any sequence of clicks, each province polygon still has
    the fill colour and stroke colour [province_poly_style] gave it, and
    its fill opacity and stroke weight depend on the last click alone:
    0.35 and 1 when that was a click on a region or province polygon of
    the polygon's own region, 0 and 0 otherwise, in particular after a
    back click. *)
Theorem polygon_styles_follow_last_event
    (sheet : list raw_row) (features : list raw_feature)
    (events : list event) (e : event) :
  exists b,
    run (the_page (clean sheet)) (events ++ [e])
        (initial (clean sheet) (load_prov_gdf features)) = Ok b
    /\ provpoly b
       = (fun g =>
            let shown :=
              match e with
              | RegionClick f | ProvinceClick f =>
                  bool_decide (props_region g = props_region f)
              | BackClick => false
              end in
            (g, {| fillColor := dict_get REGION_COLOR (props_region g) "gray";
                   color := "black";
                   weight := if shown then 1 else 0;
                   fillOpacity := if shown then 0.35 else 0.0 |}))
           <$> load_prov_gdf features.
Proof.
  destruct (run_Ok (the_page (clean sheet)) events
              (initial (clean sheet) (load_prov_gdf features))) as [b Hrun].
  destruct (handle_Ok (the_page (clean sheet)) e b) as [b' He].
  exists b'. split.
  { rewrite run_app, Hrun. unfold run. cbn [mbind result_bind forEach].
    by rewrite He. }
  rewrite (handle_provpoly _ _ _ _ He), setProvincePolygonVisibility_provpoly.
  apply run_provpoly_colours in Hrun.
  change (provpoly (initial (clean sheet) (load_prov_gdf features)))
    with ((fun f => (f, province_poly_style f)) <$> load_prov_gdf features) in Hrun.
  rewrite <- list_fmap_compose in Hrun.
  set (r := match e with
            | RegionClick f | ProvinceClick f => Some (props_region f)
            | BackClick => Some "__NONE__"
            end).
  transitivity
    ((fun x : feature * string * string =>
        (x.1.1, {| fillColor := x.1.2; color := x.2;
                   weight := if bool_decide (Some (props_region x.1.1) = r)
                             then 1 else 0;
                   fillOpacity := if bool_decide (Some (props_region x.1.1) = r)
                                  then 0.35 else 0.0 |}))
       <$> ((fun e : feature * style => (e.1, fillColor e.2, color e.2))
              <$> provpoly b)).
  { rewrite <- list_fmap_compose. by apply list_fmap_ext. }
  rewrite Hrun, <- list_fmap_compose.
  apply list_fmap_ext. intros i g Hg. cbn.
  apply list_elem_of_lookup_2 in Hg.
  apply load_prov_gdf_region in Hg as (_ & _ & _ & _ & Hne).
  f_equal. subst r.
  destruct e as [f|f|].
  - destruct (decide (props_region g = props_region f)) as [Heq|Hneq].
    + by rewrite !bool_decide_eq_true_2 by congruence.
    + by rewrite !bool_decide_eq_false_2 by congruence.
  - destruct (decide (props_region g = props_region f)) as [Heq|Hneq].
    + by rewrite !bool_decide_eq_true_2 by congruence.
    + by rewrite !bool_decide_eq_false_2 by congruence.
  - by rewrite !bool_decide_eq_false_2 by congruence.
Qed.

(** *** The script's [currentRegion] variable *)

Lemma handle_currentRegion_unread (pg : page) (e : event) (b1 b2 : browser) :
  on_map b1 = on_map b2 -> provpoly b1 = provpoly b2 ->
  provpoly_in_front b1 = provpoly_in_front b2 -> view b1 = view b2 ->
  exists b1' b2',
    handle pg e b1 = Ok b1' /\ handle pg e b2 = Ok b2'
    /\ on_map b1' = on_map b2' /\ provpoly b1' = provpoly b2'
    /\ provpoly_in_front b1' = provpoly_in_front b2' /\ view b1' = view b2'.
Proof.
  intros Hm Hp Hf Hv.
  destruct e as [f|f|]; simpl.
  - rewrite !region_click_eq. eexists _, _.
    split; [reflexivity|]. split; [reflexivity|].
    cbn. by rewrite Hm, Hp.
  - rewrite !province_click_eq. eexists _, _.
    split; [reflexivity|]. split; [reflexivity|].
    cbn. by rewrite Hm, Hp.
  - rewrite !back_click_eq. eexists _, _.
    split; [reflexivity|]. split; [reflexivity|].
    cbn. by rewrite Hm, Hp, Hf.
Qed.

Lemma run_currentRegion_unread (pg : page) (events : list event)
    (b1 b2 : browser) :
  on_map b1 = on_map b2 -> provpoly b1 = provpoly b2 ->
  provpoly_in_front b1 = provpoly_in_front b2 -> view b1 = view b2 ->
  exists b1' b2',
    run pg events b1 = Ok b1' /\ run pg events b2 = Ok b2'
    /\ on_map b1' = on_map b2' /\ provpoly b1' = provpoly b2'
    /\ provpoly_in_front b1' = provpoly_in_front b2' /\ view b1' = view b2'.
Proof.
  revert b1 b2. induction events as [|e events IH]; intros b1 b2 Hm Hp Hf Hv.
  - by exists b1, b2.
  - destruct (handle_currentRegion_unread pg e b1 b2 Hm Hp Hf Hv)
      as (c1 & c2 & He1 & He2 & Hm' & Hp' & Hf' & Hv').
    destruct (IH c1 c2 Hm' Hp' Hf' Hv') as (d1 & d2 & Hr1 & Hr2 & Hd).
    exists d1, d2. unfold run in *. simpl. rewrite He1, He2. simpl. eauto.
Qed.

(** X13.  No handler's effect on the page depends on the value of
    [currentRegion]: on any page and from any state, a session run with
    the variable set to any other value handles the same clicks to
    completion and ends with the same layers on the map, the same
    polygon styles, the same stacking and the same view. *)
Theorem currentRegion_never_read (pg : page) (events : list event)
    (b : browser) (r : option string) :
  exists b1 b2,
    run pg events b = Ok b1
    /\ run pg events (with_currentRegion r b) = Ok b2
    /\ on_map b1 = on_map b2
    /\ provpoly b1 = provpoly b2
    /\ provpoly_in_front b1 = provpoly_in_front b2
    /\ view b1 = view b2.
Proof. by apply run_currentRegion_unread. Qed.

(** X14.  [bringToFront] is never undone: on any page, once a region or
    province polygon has been clicked the province polygons are in front
    for the rest of the session, and a back click leaves the stacking as
    it is. *)
Theorem province_layer_stays_in_front (pg : page) (events : list event)
    (b : browser) :
  exists b',
    run pg events b = Ok b'
    /\ provpoly_in_front b'
       = provpoly_in_front b
         || existsb (fun e => match e with BackClick => false | _ => true end)
                    events.
Proof.
  revert b. induction events as [|e events IH]; intros b.
  - exists b. split; [reflexivity|]. simpl. by rewrite orb_false_r.
  - assert (He : exists b1, handle pg e b = Ok b1
                 /\ provpoly_in_front b1
                    = provpoly_in_front b
                      || match e with BackClick => false | _ => true end).
    { destruct e as [f|f|]; simpl.
      - rewrite region_click_eq. eexists. split; [reflexivity|].
        simpl. by rewrite orb_true_r.
      - rewrite province_click_eq. eexists. split; [reflexivity|].
        simpl. by rewrite orb_true_r.
      - rewrite back_click_eq. eexists. split; [reflexivity|].
        simpl. by rewrite orb_false_r. }
    destruct He as (b1 & He & Hf1).
    destruct (IH b1) as (b' & Hrun & Hf).
    exists b'. split.
    + unfold run in *. simpl. by rewrite He.
    + rewrite Hf, Hf1. simpl. by rewrite orb_assoc.
Qed.

(** ** More on the layout *)

Lemma omap_cons_eq {A B : Type} (f : A -> option B) (x : A) (l : list A) :
  omap f (x :: l)
  = match f x with Some y => y :: omap f l | None => omap f l end.
Proof. reflexivity. Qed.

(** No group of [groupby] is empty, so [dissolve] yields one row per
    key, in key order. *)
Lemma dissolve_regions (prov_gdf : list feature) :
  props_region <$> dissolve prov_gdf
  = merge_sort String.le (remove_dups (props_region <$> prov_gdf)).
Proof.
  unfold dissolve, groupby.
  assert (Hks : forall ks : list string,
    (forall k, k ∈ ks -> k ∈ props_region <$> prov_gdf) ->
    props_region
      <$> omap (fun g : string * list feature =>
                  first ← head g.2;
                  Some {| props_name := props_name first;
                          props_region := g.1;
                          feat_geometry := unary_union (feat_geometry <$> g.2) |})
               ((fun k => (k, filter (fun r => props_region r = k) prov_gdf)) <$> ks)
    = ks).
  { induction ks as [|k ks IH]; intros Hin; [done|].
    rewrite fmap_cons, omap_cons_eq. cbn [fst snd].
    destruct (filter (fun r => props_region r = k) prov_gdf) as [|first sub] eqn:Hf.
    - exfalso. assert (Hk : k ∈ props_region <$> prov_gdf) by (apply Hin; by left).
      apply list_elem_of_fmap in Hk as (pr & -> & Hpr).
      assert (Hpr' : pr ∈ filter (fun r => props_region r = props_region pr) prov_gdf)
        by (by apply list_elem_of_filter).
      rewrite Hf in Hpr'. by apply elem_of_nil in Hpr'.
    - cbn. f_equal. apply IH. intros k' Hk'. apply Hin. by right. }
  apply Hks. intros k Hk.
  by rewrite merge_sort_Permutation, elem_of_remove_dups in Hk.
Qed.

(** X15.  [regions_gdf] has exactly one row for each region that has a
    province in the boundary file, hence at most three rows; a region
    row carries the union of the geometries of that region's provinces
    and the name of the first of them in file order. *)
Theorem dissolve_one_row_per_region (features : list raw_feature) :
  NoDup (props_region <$> dissolve (load_prov_gdf features))
  /\ (forall reg,
        reg ∈ props_region <$> dissolve (load_prov_gdf features)
        <-> exists pr, pr ∈ load_prov_gdf features /\ props_region pr = reg)
  /\ length (dissolve (load_prov_gdf features)) <= 3
  /\ (forall r, r ∈ dissolve (load_prov_gdf features) ->
        exists first rest,
          filter (fun pr => props_region pr = props_region r)
                 (load_prov_gdf features) = first :: rest
          /\ props_name r = props_name first
          /\ feat_geometry r = unary_union (feat_geometry <$> first :: rest)).
Proof.
  assert (Hnd : NoDup (props_region <$> dissolve (load_prov_gdf features))).
  { rewrite dissolve_regions, merge_sort_Permutation. apply NoDup_remove_dups. }
  assert (Hin : forall reg,
    reg ∈ props_region <$> dissolve (load_prov_gdf features)
    <-> exists pr, pr ∈ load_prov_gdf features /\ props_region pr = reg).
  { intros reg.
    rewrite dissolve_regions, merge_sort_Permutation, elem_of_remove_dups.
    rewrite list_elem_of_fmap. split.
    - intros (pr & -> & Hpr). eauto.
    - intros (pr & Hpr & <-). eauto. }
  split; [exact Hnd|]. split; [exact Hin|]. split.
  - rewrite <- (length_fmap props_region).
    change 3 with (length ["Purple Region"; "Green Region"; "Orange Region"]).
    apply submseteq_length, NoDup_submseteq; [exact Hnd|].
    intros reg Hreg. apply Hin in Hreg as (pr & Hpr & <-).
    apply load_prov_gdf_elem in Hpr as (_ & _ & _ & Hr & _).
    rewrite !elem_of_cons.
    apply province_to_region_range in Hr as [->|[->| ->]]; auto.
  - intros r Hr. unfold dissolve in Hr.
    apply list_elem_of_omap in Hr as ([k sub] & Hg & Hr). simpl in Hr.
    apply groupby_elem in Hg as [_ ->].
    destruct (filter (fun r0 => props_region r0 = k) (load_prov_gdf features))
      as [|first rest] eqn:Hf; simpl in Hr; [done|].
    injection Hr as <-. simpl. rewrite Hf. eauto.
Qed.

(** X16.  The number on a province's badge is the number of cleaned rows
    of that province, which is the number of markers (and of heat
    points) in the site bundle that a click on the province shows. *)
Theorem province_badge_matches_bundle
    (sheet : list raw_row) (features : list raw_feature) (pr : feature) :
  pr ∈ load_prov_gdf features ->
  exists children fg m,
    count_markers sheet features = Some children
    /\ prov_counts_layer_by_region !! props_region pr = Some fg
    /\ m ∈ dict_get children fg []
    /\ cm_tooltip m = props_name pr ++ ": " ++ pretty (cm_count m) ++ " sites"
    /\ cm_count m
       = length (filter (fun r => province_name r = props_name pr) (clean sheet))
    /\ forall bundle,
         (props_name pr, site_fg (props_name pr), bundle)
           ∈ site_layer_loop (clean sheet) ->
         length (cluster bundle) = cm_count m
         /\ length (heat_data bundle) = cm_count m.
Proof.
  intros Hpr.
  destruct (count_markers_spec sheet features) as (children & Hc & _ & Hprov).
  destruct (load_prov_gdf_region _ _ Hpr) as (fg & c & Hfg & _ & _).
  assert (Hcount :
    dict_get (counts_prov (clean sheet)) (props_region pr, props_name pr) 0
    = length (filter (fun r => province_name r = props_name pr) (clean sheet))).
  { unfold counts_prov. rewrite groupby_size_lookup. f_equal.
    apply filter_ext_in. intros r Hr. split.
    - by intros [= _ ?].
    - intros Hn. f_equal; [|done].
      apply (clean_region sheet) in Hr.
      apply load_prov_gdf_elem in Hpr as (_ & _ & _ & Hreg & _).
      rewrite Hn in Hr. congruence. }
  exists children, fg, (province_badge (counts_prov (clean sheet)) pr).
  split; [exact Hc|]. split; [exact Hfg|]. split.
  { rewrite (Hprov _ _ Hfg). apply list_elem_of_fmap. exists pr.
    split; [done|]. by apply list_elem_of_filter. }
  split; [reflexivity|]. split; [exact Hcount|].
  intros bundle Hb. cbn [cm_count province_badge]. rewrite Hcount.
  unfold site_layer_loop in Hb.
  apply list_elem_of_fmap in Hb as ([k sub] & [= Hk _ ->] & Hg).
  apply groupby_elem in Hg as [_ ->]. simpl in Hk. subst k. simpl.
  unfold make_cluster, make_heat_data. by rewrite !length_fmap.
Qed.

Lemma sum_length_groups {A : Type} (key : A -> string) (df : list A)
    (names : list string) :
  NoDup names ->
  sum_list ((fun k => length (filter (fun r => key r = k) df)) <$> names)
  = length (filter (fun r => key r ∈ names) df).
Proof.
  clear_library.
  induction names as [|p names IH]; intros Hnd.
  - simpl. rewrite filter_none; [done|].
    intros r _ Hr. by apply elem_of_nil in Hr.
  - apply NoDup_cons in Hnd as [Hp Hnd].
    rewrite fmap_cons. simpl sum_list. rewrite IH by done.
    rewrite <- length_filter_or.
    2:{ intros r Hn Hin. apply Hp. by rewrite <- Hn. }
    f_equal. apply list_filter_iff. intros r. rewrite elem_of_cons. done.
Qed.

(** X17.  Every row of the frame is shown in exactly one site bundle,
    that of its province: the loop makes one bundle per province, the
    bundles' marker counts add up to the number of rows, and a row's
    marker is in its province's bundle with that row's coordinates, site
    name, user and category in its popup. *)
Theorem every_site_in_one_bundle (df : list row) :
  NoDup ((fun e : string * layer * site_bundle => e.1.1) <$> site_layer_loop df)
  /\ sum_list ((fun e : string * layer * site_bundle => length (cluster e.2))
                 <$> site_layer_loop df)
     = length df
  /\ forall r, r ∈ df ->
       exists bundle,
         (province_name r, site_fg (province_name r), bundle) ∈ site_layer_loop df
         /\ {| sm_lat := Latitude r; sm_lon := Longitude r;
               sm_site := Site_Name r; sm_user := Site_User r;
               sm_category := Category r;
               sm_province := province_name r |} ∈ cluster bundle.
Proof.
  split; [|split].
  - unfold site_layer_loop. rewrite <- list_fmap_compose.
    erewrite list_fmap_ext; [apply (groupby_keys_NoDup province_name df)|].
    by intros i [k sub] _.
  - unfold site_layer_loop, groupby. rewrite <- !list_fmap_compose.
    erewrite list_fmap_ext.
    2:{ intros i k _. cbn. unfold make_cluster. rewrite length_fmap. reflexivity. }
    rewrite sum_length_groups.
    + apply length_filter_all. intros r Hr.
      rewrite merge_sort_Permutation, elem_of_remove_dups.
      apply list_elem_of_fmap. eauto.
    + rewrite merge_sort_Permutation. apply NoDup_remove_dups.
  - intros r Hr. eexists. split.
    + unfold site_layer_loop. apply list_elem_of_fmap.
      exists (province_name r,
              filter (fun r' => province_name r' = province_name r) df).
      split; [reflexivity|]. apply groupby_elem. split; [|done].
      apply list_elem_of_fmap. eauto.
    + cbn. unfold make_cluster. apply list_elem_of_fmap. exists r.
      split; [done|]. by apply list_elem_of_filter.
Qed.

(** X18.  The three region sets are pairwise disjoint, so a province is
    given the region whose set lists it whatever the order of the tests,
    and no region when no set lists it. *)
Theorem province_to_region_by_set (p : string) :
  (province_to_region p = Some "Purple Region" <-> p ∈ PURPLE)
  /\ (province_to_region p = Some "Green Region" <-> p ∈ GREEN)
  /\ (province_to_region p = Some "Orange Region" <-> p ∈ ORANGE)
  /\ (province_to_region p = None
      <-> (p ∉ PURPLE) /\ (p ∉ GREEN) /\ (p ∉ ORANGE)).
Proof.
  clear_library.
  assert (Hpg : forall q, q ∈ PURPLE -> q ∈ GREEN -> False).
  { intros q Hq. unfold PURPLE in Hq.
    rewrite !elem_of_union, !elem_of_singleton in Hq.
    destruct Hq as [[[->| ->]| ->]| ->]; intros Hg;
      apply (bool_decide_pack _) in Hg; vm_compute in Hg; exact Hg. }
  assert (Hpo : forall q, q ∈ PURPLE -> q ∈ ORANGE -> False).
  { intros q Hq. unfold PURPLE in Hq.
    rewrite !elem_of_union, !elem_of_singleton in Hq.
    destruct Hq as [[[->| ->]| ->]| ->]; intros Hg;
      apply (bool_decide_pack _) in Hg; vm_compute in Hg; exact Hg. }
  assert (Hgo : forall q, q ∈ ORANGE -> q ∈ GREEN -> False).
  { intros q Hq. unfold ORANGE in Hq.
    rewrite !elem_of_union, !elem_of_singleton in Hq.
    destruct Hq as [[[->| ->]| ->]| ->]; intros Hg;
      apply (bool_decide_pack _) in Hg; vm_compute in Hg; exact Hg. }
  unfold province_to_region.
  specialize (Hpg p). specialize (Hpo p). specialize (Hgo p).
  revert Hpg Hpo Hgo. generalize PURPLE GREEN ORANGE. intros P G O Hpg Hpo Hgo.
  case_bool_decide as Hp; [|case_bool_decide as Hg; [|case_bool_decide as Ho]];
    repeat split; intros;
    first [assumption | discriminate | contradiction | reflexivity
          | (exfalso; eauto; fail) | tauto].
Qed.

(** X19.  Styling a region polygon never raises a [KeyError]: every row
    of [regions_gdf] has a colour in [REGION_COLOR], and it is the fill
    colour of the province polygons of that region, for which the "gray"
    default of [province_poly_style] is therefore never used. *)
Theorem region_style_colours (features : list raw_feature) (r : feature) :
  r ∈ dissolve (load_prov_gdf features) ->
  exists c,
    region_style r
    = Some {| fillColor := c; color := "black"; weight := 2; fillOpacity := 0.25 |}
    /\ c ∈ ["purple"; "green"; "orange"]
    /\ forall pr, pr ∈ load_prov_gdf features ->
         props_region pr = props_region r ->
         province_poly_style pr
         = {| fillColor := c; color := "black"; weight := 1; fillOpacity := 0.0 |}.
Proof.
  intros Hr. apply dissolve_elem in Hr as (first & Hfirst & Hreg & _).
  apply load_prov_gdf_elem in Hfirst as (_ & _ & _ & Hfr & _).
  rewrite Hreg in Hfr.
  unfold region_style, province_poly_style.
  rewrite REGION_COLOR_lookup.
  apply province_to_region_range in Hfr as [Heq|[Heq|Heq]]; rewrite Heq;
    eexists; (split; [reflexivity|]); rewrite !elem_of_cons;
    (split; [auto|]); intros pr _ ->; unfold dict_get;
    rewrite REGION_COLOR_lookup; reflexivity.
Qed.

End Heatmap.

(** ** The theorems on the sample data *)

Abbreviation sample_clean :=
  (clean sample_to_numeric sample_astype_str sample_strip sample_upper).
Abbreviation sample_load := (load_prov_gdf sample_astype_str sample_strip Z).
Abbreviation sample_markers :=
  (count_markers sample_to_numeric sample_astype_str sample_strip sample_upper
                 Z sample_centroid sample_union).
Abbreviation ontario := (boundary_of Z "Ontario" 1%Z).
Abbreviation quebec := (boundary_of Z "Quebec" 2%Z).
Abbreviation ontario_polygon := (Feature Z "Ontario" "Green Region" 1%Z).

Lemma sample_clean_site_on :
  sample_clean [site_on]
  = [ {| Site_Name := CStr "Wharf A"; Site_User := CStr "DFO";
         Latitude := Fin 45.4; Longitude := Fin (-75.7); Category := Fin 1;
         ProvCode := "ON"; province_name := "Ontario";
         region := "Green Region" |} ].
Proof. vm_compute. reflexivity. Qed.

(** Witness of C2: the click on Ontario's polygon right after the page
    of a one-site sheet has loaded. *)
Lemma province_click_drills_down_witness :
  ontario_polygon ∈ sample_load [ontario; quebec]
  /\ exists b',
       province_click Z Z sample_bounds (the_page (sample_clean [site_on]))
         ontario_polygon
         (initial Z Z (sample_clean [site_on]) (sample_load [ontario; quebec]))
       = Ok b'
       /\ currentRegion Z Z b' = Some "Green Region"
       /\ view Z Z b' = FitBounds Z 1%Z
       /\ site_fg "Ontario" ∈ on_map Z Z b'.
Proof.
  assert (Hf : ontario_polygon ∈ sample_load [ontario; quebec]).
  { vm_compute. apply list_elem_of_here. }
  split; [exact Hf|].
  destruct (province_click_drills_down sample_to_numeric sample_astype_str
              sample_strip sample_upper Z Z sample_bounds
              [site_on] [ontario; quebec] [] ontario_polygon Hf)
    as (b & b' & cl & Hrun & Hclick & Hcur & _ & _ & _ & _ & _ & Hview & Hsite).
  injection Hrun as <-.
  exists b'. split; [exact Hclick|]. split; [exact Hcur|]. split; [exact Hview|].
  apply Hsite. split; [reflexivity|].
  rewrite sample_clean_site_on. eexists. split; [apply list_elem_of_here|].
  reflexivity.
Defined.

(** Counterexample to C4 as stated: with one province polygon on the
    page, the polygon's style after the round trip differs from its
    style on the loaded page (stroke weight 0 instead of 1). *)
Lemma round_trip_styles_counterexample :
  ~ round_trip_restores Z Z sample_bounds
      (sample_clean [site_on]) (sample_load [ontario]) ontario_polygon.
Proof.
  intros (b & Hrun & _ & Hpoly & _).
  assert (Hin : (ontario_polygon, province_poly_style Z ontario_polygon)
                ∈ provpoly Z Z b).
  { rewrite Hpoly. unfold initial. cbn [provpoly].
    apply list_elem_of_fmap. exists ontario_polygon. split; [reflexivity|].
    vm_compute. apply list_elem_of_here. }
  apply (region_then_back_weight Z Z sample_bounds _ _ _ _ _ _ Hrun) in Hin;
    [|discriminate].
  discriminate Hin.
Qed.

Lemma sample_clean_two_sites :
  sample_clean [site_on; site_qc]
  = [ {| Site_Name := CStr "Wharf A"; Site_User := CStr "DFO";
         Latitude := Fin 45.4; Longitude := Fin (-75.7); Category := Fin 1;
         ProvCode := "ON"; province_name := "Ontario";
         region := "Green Region" |};
      {| Site_Name := CStr "Quai B"; Site_User := CStr "SCH";
         Latitude := Fin 46.8; Longitude := Fin (-71.2); Category := Fin 2;
         ProvCode := "QC"; province_name := "Quebec";
         region := "Green Region" |} ].
Proof. vm_compute. reflexivity. Qed.

(** Counterexample to C5 as stated: a sheet with one Quebec site and a
    boundary file that holds Ontario only.  The Green badge shows 1, the
    only badge of Green's province-count layer (Ontario) shows 0. *)
Lemma counts_add_up_counterexample :
  ~ counts_add_up sample_to_numeric sample_astype_str sample_strip sample_upper
      Z sample_centroid sample_union [site_qc] [ontario].
Proof.
  intros (children & Hc & Hall).
  destruct (count_markers_spec sample_to_numeric sample_astype_str sample_strip
              sample_upper Z sample_centroid sample_union [site_qc] [ontario])
    as (c' & Hc' & Hreg & Hprov).
  rewrite Hc in Hc'. injection Hc' as <-.
  destruct (Hall ontario_polygon) as (fg & m & Hfg & Hm & _ & Hsum).
  { vm_compute. apply list_elem_of_here. }
  rewrite (Hprov _ _ Hfg) in Hsum. rewrite Hreg in Hm.
  vm_compute in Hm. apply list_elem_of_singleton in Hm. subst m.
  vm_compute in Hsum. discriminate Hsum.
Qed.

(** Witness of C5 (amended): two sites, both provinces in the file. *)
Lemma counts_add_up_when_covered_witness :
  NoDup (props_name Z <$> sample_load [ontario; quebec])
  /\ (forall r, r ∈ sample_clean [site_on; site_qc] ->
                province_name r ∈ props_name Z <$> sample_load [ontario; quebec])
  /\ counts_add_up sample_to_numeric sample_astype_str sample_strip sample_upper
       Z sample_centroid sample_union [site_on; site_qc] [ontario; quebec].
Proof.
  assert (H1 : NoDup (props_name Z <$> sample_load [ontario; quebec])).
  { apply (bool_decide_unpack _). vm_compute. exact I. }
  assert (H2 : forall r, r ∈ sample_clean [site_on; site_qc] ->
                 province_name r ∈ props_name Z <$> sample_load [ontario; quebec]).
  { intros r Hr. rewrite sample_clean_two_sites in Hr.
    apply elem_of_cons in Hr as [->|Hr].
    - vm_compute. apply list_elem_of_here.
    - apply list_elem_of_singleton in Hr as ->.
      vm_compute. apply list_elem_of_further, list_elem_of_here. }
  split; [exact H1|]. split; [exact H2|].
  exact (counts_add_up_when_covered sample_to_numeric sample_astype_str
           sample_strip sample_upper Z sample_centroid sample_union
           [site_on; site_qc] [ontario; quebec] H1 H2).
Defined.



(** Witness of C8: on the loaded page the Green province-count layer is
    off the map and the region polygons are on it. *)
Lemma show_hide_idempotent_witness :
  (prov_counts_green
   ∉ on_map Z Z (initial Z Z (sample_clean [site_on]) (sample_load [ontario])))
  /\ removeLayerIfPresent Z Z (Some prov_counts_green)
       (initial Z Z (sample_clean [site_on]) (sample_load [ontario]))
     = Ok (initial Z Z (sample_clean [site_on]) (sample_load [ontario]))
  /\ region_layer ∈ on_map Z Z (initial Z Z (sample_clean [site_on]) (sample_load [ontario]))
  /\ addLayerIfMissing Z Z (Some region_layer)
       (initial Z Z (sample_clean [site_on]) (sample_load [ontario]))
     = Ok (initial Z Z (sample_clean [site_on]) (sample_load [ontario])).
Proof.
  assert (H1 : prov_counts_green
               ∉ on_map Z Z (initial Z Z (sample_clean [site_on]) (sample_load [ontario]))).
  { rewrite initial_on_map, !elem_of_union, !elem_of_singleton.
    intros [[?|?]|?]; discriminate. }
  assert (H2 : region_layer
               ∈ on_map Z Z (initial Z Z (sample_clean [site_on]) (sample_load [ontario]))).
  { rewrite initial_on_map, !elem_of_union, !elem_of_singleton. by right. }
  destruct (show_hide_idempotent Z Z (Some prov_counts_green)
              (initial Z Z (sample_clean [site_on]) (sample_load [ontario])))
    as (_ & _ & Hhide & Hshow).
  split; [exact H1|]. split; [exact (Hhide _ H1)|].
  split; [exact H2|]. exact (Hshow _ H2).
Defined.


(** Witness of C10: a contractor's row in front of a DFO row. *)
Lemma invalid_user_rows_excluded_witness :
  (forall s, s ∈ ["DFO"; "Shared-DFO"; "SCH"] ->
             raw_Site_User site_contractor <> CStr s)
  /\ sample_clean ([] ++ site_contractor :: [site_on]) = sample_clean ([] ++ [site_on])
  /\ sample_markers ([] ++ site_contractor :: [site_on]) [ontario]
     = sample_markers ([] ++ [site_on]) [ontario].
Proof.
  assert (H1 : forall s, s ∈ ["DFO"; "Shared-DFO"; "SCH"] ->
                 raw_Site_User site_contractor <> CStr s).
  { intros s Hs. rewrite !elem_of_cons, elem_of_nil in Hs.
    destruct Hs as [->|[->|[->|[]]]]; discriminate. }
  destruct (invalid_user_rows_excluded sample_to_numeric sample_astype_str
              sample_strip sample_upper Z sample_centroid sample_union
              [] [site_on] site_contractor [ontario] H1)
    as (Hclean & _ & _ & Hmarkers & _).
  split; [exact H1|]. split; [exact Hclean|]. exact Hmarkers.
Defined.

(** Witness of X2: a site entered under the code "OC". *)
Lemma oc_rows_count_as_bc_witness :
  sample_upper (sample_strip (sample_astype_str (CStr "OC"))) = "OC"
  /\ exists r,
       assign_columns sample_to_numeric sample_astype_str sample_strip sample_upper
         (RawRow (CStr "Dock D") (CStr "DFO") (Fin 49.2) (Fin (-123.1))
                 (CNum (Fin 1)) (CStr "OC")) = Some r
       /\ ProvCode r = "BC"
       /\ province_name r = "British Columbia"
       /\ region r = "Purple Region".
Proof.
  split; [reflexivity|].
  exact (oc_rows_count_as_bc sample_to_numeric sample_astype_str sample_strip
           sample_upper
           (RawRow (CStr "Dock D") (CStr "DFO") (Fin 49.2) (Fin (-123.1))
                   (CNum (Fin 1)) (CStr "OC")) eq_refl).
Defined.

(** Witness of X4: the cleaned row of the Ontario site. *)
Lemma cleaned_row_invariants_witness :
  {| Site_Name := CStr "Wharf A"; Site_User := CStr "DFO";
     Latitude := Fin 45.4; Longitude := Fin (-75.7); Category := Fin 1;
     ProvCode := "ON"; province_name := "Ontario";
     region := "Green Region" |} ∈ sample_clean [site_on]
  /\ CODE_TO_NAME !! "ON" = Some "Ontario"
  /\ province_to_region "Ontario" = Some "Green Region".
Proof.
  assert (H1 : {| Site_Name := CStr "Wharf A"; Site_User := CStr "DFO";
                  Latitude := Fin 45.4; Longitude := Fin (-75.7);
                  Category := Fin 1; ProvCode := "ON";
                  province_name := "Ontario"; region := "Green Region" |}
               ∈ sample_clean [site_on]).
  { rewrite sample_clean_site_on. apply list_elem_of_here. }
  destruct (cleaned_row_invariants sample_to_numeric sample_astype_str
              sample_strip sample_upper [site_on] _ H1)
    as (_ & _ & _ & _ & Hcode & Hreg).
  split; [exact H1|]. split; [exact Hcode|]. exact Hreg.
Defined.

(** Witness of X7: Ontario's bundle on the two-site sheet holds one
    site, and the count of (Green Region, Ontario) is 1. *)
Lemma bundle_size_matches_count_witness :
  ("Ontario", site_fg "Ontario",
   {| heat_data := [(Fin 45.4, Fin (-75.7), 1%Q)];
      cluster := [ {| sm_lat := Fin 45.4; sm_lon := Fin (-75.7);
                      sm_site := CStr "Wharf A"; sm_user := CStr "DFO";
                      sm_category := Fin 1; sm_province := "Ontario" |} ] |})
    ∈ site_layer_loop (sample_clean [site_on; site_qc])
  /\ exists reg,
       province_to_region "Ontario" = Some reg
       /\ 1%nat = dict_get (counts_prov (sample_clean [site_on; site_qc]))
                    (reg, "Ontario") 0%nat.
Proof.
  assert (H1 : ("Ontario", site_fg "Ontario",
     {| heat_data := [(Fin 45.4, Fin (-75.7), 1%Q)];
        cluster := [ {| sm_lat := Fin 45.4; sm_lon := Fin (-75.7);
                        sm_site := CStr "Wharf A"; sm_user := CStr "DFO";
                        sm_category := Fin 1; sm_province := "Ontario" |} ] |})
      ∈ site_layer_loop (sample_clean [site_on; site_qc])).
  { vm_compute. apply list_elem_of_here. }
  destruct (bundle_size_matches_count sample_to_numeric sample_astype_str
              sample_strip sample_upper [site_on; site_qc] _ _ _ H1)
    as (_ & _ & _ & Hcount).
  split; [exact H1|]. exact Hcount.
Defined.

(** Witness of X16: Ontario's badge on the one-site sheet. *)
Lemma province_badge_matches_bundle_witness :
  ontario_polygon ∈ sample_load [ontario; quebec]
  /\ exists children fg m,
       sample_markers [site_on] [ontario; quebec] = Some children
       /\ prov_counts_layer_by_region !! "Green Region" = Some fg
       /\ m ∈ dict_get children fg []
       /\ cm_tooltip m = "Ontario" ++ ": " ++ pretty (cm_count m) ++ " sites"
       /\ cm_count m
          = length (filter (fun r => province_name r = "Ontario")
                           (sample_clean [site_on])).
Proof.
  assert (Hf : ontario_polygon ∈ sample_load [ontario; quebec]).
  { vm_compute. apply list_elem_of_here. }
  destruct (province_badge_matches_bundle sample_to_numeric sample_astype_str
              sample_strip sample_upper Z sample_centroid sample_union
              [site_on] [ontario; quebec] ontario_polygon Hf)
    as (children & fg & m & Hc & Hfg & Hm & Htip & Hcount & _).
  split; [exact Hf|].
  exists children, fg, m.
  split; [exact Hc|]. split; [exact Hfg|]. split; [exact Hm|].
  split; [exact Htip|]. exact Hcount.
Defined.

(** Witness of X19: the Green Region row dissolved from Ontario alone. *)
Lemma region_style_colours_witness :
  ontario_polygon ∈ dissolve Z sample_union (sample_load [ontario])
  /\ exists c,
       region_style Z ontario_polygon
       = Some {| fillColor := c; color := "black"; weight := 2;
                 fillOpacity := 0.25 |}
       /\ c ∈ ["purple"; "green"; "orange"].
Proof.
  assert (Hr : ontario_polygon ∈ dissolve Z sample_union (sample_load [ontario])).
  { vm_compute. apply list_elem_of_here. }
  destruct (region_style_colours sample_astype_str sample_strip Z sample_union
              [ontario] ontario_polygon Hr) as (c & Hstyle & Hc & _).
  split; [exact Hr|]. exists c. split; [exact Hstyle|]. exact Hc.
Defined.
